(** * InertiaForm: a shallow embedding of [src/InertiaForm.js]

    The class [InertiaForm] keeps the state of a client-side form: the
    user's fields, an [initial] snapshot of them, four bookkeeping flags and
    an options object.  Every instance is handed out behind a [Proxy] whose
    [set] trap raises the [isDirty] flag.

    Conventions of the embedding.
    - A JavaScript object is the list of its own enumerable properties, in
      the order [for ... in] and [Object.values] visit them.  Objects
      inherit nothing enumerable and do not shadow [hasOwnProperty]; arrays
      have no holes; numbers are integers.
    - A form is its property store (the flags, [initial] and the fields,
      each under its own name) together with the [__options] slot, which
      only [withOptions] writes and whose three members are typed.
    - The collaborators live in the [World] around the form: the page that
      [__page()] returns, [window.grecaptcha], the calls made on
      [__inertia] and the steps handed to [setTimeout].
    - A method that may throw returns an [outcome]: the state it leaves
      behind, tagged with the exception if there was one.
    - [./util] is not among the sources.  Its constant [reservedFieldNames]
      and its predicate [isFile] are variables of the section; [merge] and
      [guardAgainstReservedFieldName] are modelled from the specification. *)

From Stdlib Require Import String List Bool ZArith Lia.
Import ListNotations.
Local Open Scope string_scope.
Local Open Scope Z_scope.

Set Implicit Arguments.
Local Set Warnings "-register-all".

(** ** JavaScript values *)

Inductive value : Type :=
| VUndefined
| VNull
| VBool (b : bool)
| VNum (n : Z)
| VStr (s : string)
| VHost (h : nat)                        (* File, Blob, Date, ...: opaque *)
| VArr (elements : list value)
| VObj (properties : list (string * value)).

(** A mapping keyed by strings, in iteration order. *)
Definition dict (A : Type) : Type := list (string * A).

Definition object : Type := dict value.

Fixpoint lookup {A : Type} (o : dict A) (k : string) : option A :=
  match o with
  | [] => None
  | (k', v) :: rest => if String.eqb k k' then Some v else lookup rest k
  end.

(** The keys [for (const key in o)] and [Object.keys(o)] run through, and
    the values [Object.values(o)] returns. *)
Definition keys {A : Type} (o : dict A) : list string := map fst o.
Definition values {A : Type} (o : dict A) : list A := map snd o.

(** [o[k]] *)
Definition get_prop (o : object) (k : string) : value :=
  match lookup o k with
  | Some v => v
  | None => VUndefined
  end.

(** [o[k] = v]: an existing property keeps its place, a new one is added
    last (keys that read as array indices are not told apart from the
    others). *)
Fixpoint set_prop (o : object) (k : string) (v : value) : object :=
  match o with
  | [] => [(k, v)]
  | (k', v') :: rest =>
      if String.eqb k k' then (k', v) :: rest else (k', v') :: set_prop rest k v
  end.

(** [v[k]] for the value [v] of the [initial] slot.  The class only ever
    stores a plain object there; a member of anything else reads as
    [undefined].  Own properties only: what a plain object inherits under
    [constructor], [toString] and the like is not part of the model. *)
Definition member (v : value) (k : string) : value :=
  match v with
  | VObj o => get_prop o k
  | _ => VUndefined
  end.

(** [Array.prototype.indexOf] on an array of strings. *)
Fixpoint indexOf_from (i : Z) (l : list string) (x : string) : Z :=
  match l with
  | [] => -1
  | y :: rest => if String.eqb x y then i else indexOf_from (i + 1) rest x
  end.

Definition indexOf (l : list string) (x : string) : Z := indexOf_from 0 l x.

(** [Array.prototype.join] on an array of strings. *)
Fixpoint join (sep : string) (l : list string) : string :=
  match l with
  | [] => ""
  | [x] => x
  | x :: rest => x ++ sep ++ join sep rest
  end.

(** ** The form object *)

Record Options : Type := mkOptions {
  bag : string;
  resetOnSuccess : bool;
  setInitialOnSuccess : bool
}.

Record Form : Type := mkForm {
  props : object;
  __options : Options
}.

(** [obj[prop]] and [obj[prop] = value] on the target object.  The
    [__options] record is kept apart from the store: a write to that name
    from outside the class is not what changes it. *)
Definition read (obj : Form) (prop : string) : value :=
  get_prop (props obj) prop.

Definition write (obj : Form) (prop : string) (v : value) : Form :=
  mkForm (set_prop (props obj) prop v) (__options obj).

Definition isDirty (obj : Form) : value := read obj "isDirty".
Definition processing (obj : Form) : value := read obj "processing".
Definition successful (obj : Form) : value := read obj "successful".
Definition recentlySuccessful (obj : Form) : value :=
  read obj "recentlySuccessful".
Definition initial (obj : Form) : value := read obj "initial".

(** The properties of [this.initial], as [for (... in this.initial)] sees
    them. *)
Definition initial_object (obj : Form) : object :=
  match initial obj with
  | VObj o => o
  | _ => []
  end.

(** Exceptions, and the result of a call that may throw: the state it
    leaves behind comes with either. *)
Inductive exn : Type :=
| Error (message : string)
| ReservedFieldName (field : string)
| TypeError.

Inductive outcome (S : Type) : Type :=
| Ok (s : S)
| Throw (e : exn) (s : S).

Arguments Ok {S} s.
Arguments Throw {S} e s.

Definition state_of {S : Type} (r : outcome S) : S :=
  match r with
  | Ok s => s
  | Throw _ s => s
  end.

(** [c >>= k]: [k] runs on the state [c] returns; a throw ends the call. *)
Definition and_then {S : Type} (c : outcome S) (k : S -> outcome S)
  : outcome S :=
  match c with
  | Ok s => k s
  | Throw e s => Throw e s
  end.

Notation "c >>= k" := (and_then c k) (at level 50, left associativity).

(** Who a method's [this] is: the bare object inside the constructor, the
    proxy on every later call. *)
Inductive receiver : Type := Target | Proxied.

(** The argument of [withData]: an array of field names or a mapping. *)
Inductive data_arg : Type :=
| FieldNames (names : list string)
| Fields (o : object).

(** The argument of [withOptions]; [None] is a key the object does not
    own. *)
Record options_arg : Type := mkOptionsArg {
  arg_bag : option string;
  arg_resetOnSuccess : option bool;
  arg_setInitialOnSuccess : option bool
}.

(** What [__page()] returns. *)
Record Page : Type := mkPage {
  errorBags : dict (dict (list string))
}.

(** The [options] of [submit]: [None] is [undefined]; the caller's own
    [onSuccess] callback, when given, is known by a number. *)
Record submit_options : Type := mkSubmitOptions {
  user_onSuccess : option nat
}.

Inductive payload : Type :=
| NoPayload
| PlainData (d : object)
| FormData (d : object).                 (* objectToFormData(d) *)

Record request : Type := mkRequest {
  req_method : string;
  req_url : string;
  req_body : payload;
  req_options : option submit_options
}.

(** A submission waiting in [grecaptcha.ready] for its token. *)
Record pending : Type := mkPending {
  pend_method : string;
  pend_url : string;
  pend_options : option submit_options
}.

(** The callbacks handed to [setTimeout]. *)
Inductive deferred : Type := ClearRecentlySuccessful.

Record World : Type := mkWorld {
  form : Form;
  page : Page;                           (* what [__page()] returns now *)
  grecaptcha : bool;                     (* is [window.grecaptcha] there *)
  awaiting_token : list pending;
  requests : list request;               (* calls made on [__inertia] *)
  timers : list (Z * deferred)           (* [setTimeout] calls: delay, step *)
}.

Definition with_form (w : World) (f : Form) : World :=
  mkWorld f (page w) (grecaptcha w) (awaiting_token w) (requests w) (timers w).

Definition setTimeout (d : deferred) (delay : Z) (w : World) : World :=
  mkWorld (form w) (page w) (grecaptcha w) (awaiting_token w) (requests w)
          (timers w ++ [(delay, d)]).

Definition wait_for_token (p : pending) (w : World) : World :=
  mkWorld (form w) (page w) (grecaptcha w) (awaiting_token w ++ [p])
          (requests w) (timers w).

Definition send (r : request) (w : World) : World :=
  mkWorld (form w) (page w) (grecaptcha w) (awaiting_token w)
          (requests w ++ [r]) (timers w).

(** ** Sample data

    The inputs the closed examples at the end of the file run on. *)

(** The names the specification (section 3) gives as reserved, its
    "internal option/collaborator slots" spelled out. *)
Definition sample_reserved : list string :=
  ["processing"; "successful"; "recentlySuccessful"; "isDirty"; "initial";
   "__options"; "__inertia"; "__page"].

(** A file predicate: host objects are files, nothing else is. *)
Definition host_is_file (v : value) : bool :=
  match v with
  | VHost _ => true
  | _ => false
  end.

(** No two object values written are one object. *)
Definition distinct_objects (a b : value) : bool := false.

(** Callbacks of the caller that do nothing. *)
Definition idle_callback (n : nat) (pg : Page) (w : World) : outcome World :=
  Ok w.

Definition default_options : Options := mkOptions "default" true false.

(** The form [create({email: '', remember: false})] returns. *)
Definition login_form : Form :=
  mkForm [("processing", VBool false); ("successful", VBool false);
          ("recentlySuccessful", VBool false); ("isDirty", VBool false);
          ("initial", VObj [("email", VStr ""); ("remember", VBool false)]);
          ("email", VStr ""); ("remember", VBool false)]
         default_options.

(** The same form, filled in and submitted. *)
Definition submitted_login_form : Form :=
  mkForm [("processing", VBool true); ("successful", VBool false);
          ("recentlySuccessful", VBool false); ("isDirty", VBool true);
          ("initial", VObj [("email", VStr ""); ("remember", VBool false)]);
          ("email", VStr "ann@example.org"); ("remember", VBool true)]
         default_options.

(** A form whose field [a] is [{b: ['text', file]}]. *)
Definition upload_form : Form :=
  mkForm [("processing", VBool false); ("successful", VBool false);
          ("recentlySuccessful", VBool false); ("isDirty", VBool true);
          ("initial", VObj [("a", VNull)]);
          ("a", VObj [("b", VArr [VStr "text"; VHost 7])])]
         default_options.

(** The form [create({_error_bag: 'x'})] returns. *)
Definition marker_form : Form :=
  mkForm [("processing", VBool false); ("successful", VBool false);
          ("recentlySuccessful", VBool false); ("isDirty", VBool false);
          ("initial", VObj [("_error_bag", VStr "x")]);
          ("_error_bag", VStr "x")]
         default_options.

(** A form whose field [tags] is the array [['x']], as in [initial]. *)
Definition tags_form : Form :=
  mkForm [("processing", VBool false); ("successful", VBool false);
          ("recentlySuccessful", VBool false); ("isDirty", VBool false);
          ("initial", VObj [("tags", VArr [VStr "x"])]);
          ("tags", VArr [VStr "x"])]
         default_options.

(** The submitted login form under other options: [setInitialOnSuccess]
    alone, and neither switch. *)
Definition snapshot_login_form : Form :=
  mkForm (props submitted_login_form) (mkOptions "default" false true).

Definition plain_login_form : Form :=
  mkForm (props submitted_login_form) (mkOptions "default" false false).

(** A form used before, with [recentlySuccessful] still on. *)
Definition used_form : Form :=
  mkForm [("processing", VBool true); ("successful", VBool true);
          ("recentlySuccessful", VBool true); ("isDirty", VBool true);
          ("initial", VObj [("email", VStr "")]);
          ("email", VStr "ann@example.org")]
         (mkOptions "login" false true).

Definition world_of (f : Form) (pg : Page) : World :=
  mkWorld f pg true [] [] [].

(** Pages: one without error bags, one with an empty bag, one whose
    default bag reports a bad email, one whose first message is empty. *)
Definition clean_page : Page := mkPage [].
Definition empty_bag_page : Page := mkPage [("default", [])].
Definition invalid_email_page : Page :=
  mkPage [("default", [("email", ["Invalid"])])].
Definition empty_message_page : Page :=
  mkPage [("default", [("email", [""; "Invalid"]); ("name", ["Required"])])].

(** ** The class *)

Section InertiaForm.

Set Default Proof Using "Type".

(** [reservedFieldNames] and [isFile] are imported from [./util]. *)
Variable reservedFieldNames : list string.
Variable isFile : value -> bool.

(** [a === b] on two values of which the first is an object: whether they
    are the same object. *)
Variable same_object : value -> value -> bool.

(** What the caller's [options.onSuccess], known by its number, does when
    it is called with the page. *)
Variable user_callback : nat -> Page -> World -> outcome World.

(** [a === b] *)
Definition strict_eq (a b : value) : bool :=
  match a, b with
  | VUndefined, VUndefined => true
  | VNull, VNull => true
  | VBool x, VBool y => Bool.eqb x y
  | VNum x, VNum y => (x =? y)
  | VStr x, VStr y => String.eqb x y
  | (VHost _ | VArr _ | VObj _), _ => same_object a b
  | _, _ => false
  end.

(** The [set] trap of the proxy the constructor returns. *)
Definition proxy_set (obj : Form) (prop : string) (v : value) : Form :=
  let obj := write obj prop v in
  if (indexOf reservedFieldNames prop =? -1)
     && negb (strict_eq v (member (initial obj) prop))
  then write obj "isDirty" (VBool true)
  else obj.

(** A run of writes through the proxy. *)
Definition proxy_writes (obj : Form) (ws : list (string * value)) : Form :=
  fold_left (fun obj w => proxy_set obj (fst w) (snd w)) ws obj.

(** [this[prop] = v] inside a method. *)
Definition assign (this : receiver) (obj : Form) (prop : string) (v : value)
  : Form :=
  match this with
  | Target => write obj prop v
  | Proxied => proxy_set obj prop v
  end.

(** Modelled from the spec: [merge(a, b)] of [./util], which is not among
    the sources.  [reset()] "overwrites every current field value with its
    stored initial value" and [initial] is a snapshot of the data given:
    [merge] assigns to [a], key by key, a copy of each property of [b].
    The assignments are ordinary ones, so they pass through the trap when
    [a] is the proxy. *)
Definition merge {T : Type} (assign_to : T -> string -> value -> T)
           (a : T) (b : object) : T :=
  fold_left (fun a key => assign_to a key (get_prop b key)) (keys b) a.

(** Modelled from the spec: [guardAgainstReservedFieldName(field)] of
    [./util], which is not among the sources: it "rejects reserved names
    with a fatal configuration error", and returns otherwise. *)
Definition guardAgainstReservedFieldName (field : string) (obj : Form)
  : outcome Form :=
  if indexOf reservedFieldNames field =? -1
  then Ok obj
  else Throw (ReservedFieldName field) obj.

Definition setInitialValues (this : receiver) (obj : Form) (vals : object)
  : Form :=
  let obj := assign this obj "initial" (VObj []) in
  write obj "initial" (VObj (merge set_prop (initial_object obj) vals)).

(** The loop of [withData] over the fields of [data]. *)
Fixpoint withData_fields (this : receiver) (data : object)
         (fields : list string) (obj : Form) : outcome Form :=
  match fields with
  | [] => Ok obj
  | field :: rest =>
      guardAgainstReservedFieldName field obj >>= fun obj =>
      withData_fields this data rest
                      (assign this obj field (get_prop data field))
  end.

Definition withData (this : receiver) (data : data_arg) (obj : Form)
  : outcome Form :=
  let data :=
    match data with
    | FieldNames names =>
        fold_left (fun carry element => set_prop carry element (VStr ""))
                  names []
    | Fields o => o
    end in
  let obj := setInitialValues this obj data in
  let obj := assign this obj "processing" (VBool false) in
  let obj := assign this obj "successful" (VBool false) in
  withData_fields this data (keys data) obj >>= fun obj =>
  Ok (assign this obj "isDirty" (VBool false)).

(** [this.__options = {...}]: the object literal is a new object, which
    is [!==] to whatever the trap compares it with. *)
Definition assign_options (this : receiver) (obj : Form) (o : Options)
  : Form :=
  let obj := mkForm (props obj) o in
  match this with
  | Target => obj
  | Proxied =>
      if indexOf reservedFieldNames "__options" =? -1
      then write obj "isDirty" (VBool true)
      else obj
  end.

Definition withOptions (this : receiver) (options : options_arg) (obj : Form)
  : Form :=
  let obj := assign_options this obj (mkOptions "default" true false) in
  let obj :=
    match arg_bag options with
    | Some b =>
        mkForm (props obj)
               (mkOptions b (resetOnSuccess (__options obj))
                          (setInitialOnSuccess (__options obj)))
    | None => obj
    end in
  let obj :=
    match arg_resetOnSuccess options with
    | Some b =>
        mkForm (props obj)
               (mkOptions (bag (__options obj)) b
                          (setInitialOnSuccess (__options obj)))
    | None => obj
    end in
  match arg_setInitialOnSuccess options with
  | Some b =>
      mkForm (props obj)
             (mkOptions (bag (__options obj))
                        (resetOnSuccess (__options obj)) b)
  | None => obj
  end.

(** [new InertiaForm(data, options)]; the [__options] slot is unset until
    [withOptions] has run. *)
Definition constructor (data : data_arg) (options : options_arg)
  : outcome Form :=
  let this := mkForm [] (mkOptions "default" true false) in
  let this := write this "processing" (VBool false) in
  let this := write this "successful" (VBool false) in
  let this := write this "recentlySuccessful" (VBool false) in
  let this := write this "isDirty" (VBool false) in
  withData Target data this >>= fun this =>
  Ok (withOptions Target options this).

Definition create (data : data_arg) : outcome Form :=
  constructor (Fields []) (mkOptionsArg None None None) >>= fun this =>
  withData Proxied data this.

Definition data (this : Form) : object :=
  fold_left (fun data property => set_prop data property (read this property))
            (keys (initial_object this))
            [("_error_bag", VStr (bag (__options this)))].

Definition reset (this : Form) : Form :=
  let this := merge proxy_set this (initial_object this) in
  proxy_set this "isDirty" (VBool false).

Fixpoint hasFilesDeep (object : value) : bool :=
  match object with
  | VNull => false
  | VObj properties =>
      existsb (fun p => hasFilesDeep (snd p)) properties || isFile object
  | VArr elements =>
      existsb hasFilesDeep elements
      || match elements with
         | first :: _ => hasFilesDeep first
         | [] => isFile object
         end
  | _ => isFile object
  end.

Definition hasFiles (this : Form) : bool :=
  existsb (fun property => hasFilesDeep (read this property))
          (keys (initial_object this)).

(** The claim's side of [hasFiles], in its words: a leaf is a value that
    is neither null, a mapping nor a sequence; a value contains a file when
    it is a leaf the file predicate holds of, or a mapping or a sequence
    one of whose members contains a file. *)
Definition is_leaf (v : value) : bool :=
  match v with
  | VNull | VArr _ | VObj _ => false
  | _ => true
  end.

Inductive contains_file : value -> Prop :=
| file_leaf (v : value) :
    is_leaf v = true -> isFile v = true -> contains_file v
| file_in_mapping (properties : object) (key : string) (v : value) :
    In (key, v) properties -> contains_file v ->
    contains_file (VObj properties)
| file_in_sequence (elements : list value) (v : value) :
    In v elements -> contains_file v -> contains_file (VArr elements).

Definition inertiaPage (w : World) : Page := page w.

(** [errorBags[bag] && Object.keys(errorBags[bag]).length > 0], as the
    condition it is used for. *)
Definition hasErrors (w : World) : bool :=
  match lookup (errorBags (inertiaPage w)) (bag (__options (form w))) with
  | Some errorBag => (0 <? Z.of_nat (length (keys errorBag)))
  | None => false
  end.

(** [error(field)]; [None] is the [undefined] of the bare [return]. *)
Definition error (field : string) (w : World) : option string :=
  if negb (hasErrors w) then None
  else
    match lookup (errorBags (inertiaPage w)) (bag (__options (form w))) with
    | Some errorBag =>
        match lookup errorBag field with
        | None => None
        | Some [] => None
        | Some (first :: _) => Some first
        end
    | None => None
    end.

(** The condition [this.error(field) ? ... : ...]: a string is truthy
    unless it is empty, [undefined] is not. *)
Definition truthy_message (m : option string) : bool :=
  match m with
  | Some s => negb (String.eqb s "")
  | None => false
  end.

(** [errors(field)]; [field] is [None] for the default [null]. *)
Definition errors (field : option string) (w : World) : list string :=
  match field with
  | None =>
      if hasErrors w
      then
        match lookup (errorBags (inertiaPage w)) (bag (__options (form w))) with
        | Some errorBag => fold_left (fun a b => (a ++ b)%list) (values errorBag) []
        | None => []
        end
      else []
  | Some field =>
      if truthy_message (error field w)
      then
        match lookup (errorBags (inertiaPage w)) (bag (__options (form w))) with
        | Some errorBag =>
            match lookup errorBag field with
            | Some messages => messages
            | None => []
            end
        | None => []
        end
      else []
  end.

(** [const { _error_bag, ...data } = this.data()] *)
Definition without_error_bag (d : object) : object :=
  filter (fun p => negb (String.eqb (fst p) "_error_bag")) d.

Definition on_form (g : Form -> Form) (w : World) : World :=
  with_form w (g (form w)).

Definition onSuccess (w : World) : World :=
  let w := on_form (fun this => proxy_set this "successful" (VBool true)) w in
  let w :=
    on_form (fun this => proxy_set this "recentlySuccessful" (VBool true)) w in
  let w := setTimeout ClearRecentlySuccessful 2000 w in
  if resetOnSuccess (__options (form w)) then
    on_form reset w
  else if setInitialOnSuccess (__options (form w)) then
    on_form (fun this =>
               let data := without_error_bag (data this) in
               let this := setInitialValues Proxied this data in
               proxy_set this "isDirty" (VBool false)) w
  else w.

Definition onFail (w : World) : World :=
  let w := on_form (fun this => proxy_set this "successful" (VBool false)) w in
  on_form (fun this => proxy_set this "recentlySuccessful" (VBool false)) w.

(** The step a timer runs when it fires. *)
Definition fire (d : deferred) (w : World) : World :=
  match d with
  | ClearRecentlySuccessful =>
      on_form (fun this => proxy_set this "recentlySuccessful" (VBool false)) w
  end.

Definition requestTypes : list string :=
  ["get"; "post"; "put"; "patch"; "delete"].

Definition __validateRequestType (requestType : string) (w : World)
  : outcome World :=
  if indexOf requestTypes requestType =? -1
  then Throw (Error ("`" ++ requestType ++ "` is not a valid request type, "
                     ++ "must be one of: `" ++ join "`, `" requestTypes
                     ++ "`.")) w
  else Ok w.

(** The part of the [onSuccess] arrow of [submit] that comes before the
    caller's own callback. *)
Definition response_bookkeeping (w : World) : World :=
  let w := on_form (fun this => proxy_set this "processing" (VBool false)) w in
  if negb (hasErrors w) then onSuccess w else onFail w.

(** The [onSuccess] arrow of [submit], which the navigation client calls
    with the page once the round trip is over. *)
Definition submit_onSuccess (options : option submit_options) (pg : Page)
           (w : World) : outcome World :=
  let w := response_bookkeeping w in
  match options with
  | None => Throw TypeError w           (* [options.onSuccess] of undefined *)
  | Some o =>
      match user_onSuccess o with
      | Some callback => user_callback callback pg w
      | None => Ok w
      end
  end.

(** [submit], up to the call of [grecaptcha.ready]. *)
Definition submit (requestType url : string)
           (options : option submit_options) (w : World) : outcome World :=
  __validateRequestType requestType w >>= fun w =>
  let w := on_form (fun this => proxy_set this "processing" (VBool true)) w in
  let w := on_form (fun this => proxy_set this "successful" (VBool false)) w in
  if grecaptcha w
  then Ok (wait_for_token (mkPending requestType url options) w)
  else Throw TypeError w.

(** The [then] callback of [grecaptcha.execute], run with the token: the
    call on the navigation client. *)
Definition submit_with_token (p : pending) (token : string) (w : World)
  : World :=
  let data := data (form w) in
  let data := set_prop data "token" (VStr token) in
  if String.eqb (pend_method p) "delete" then
    send (mkRequest (pend_method p) (pend_url p) NoPayload (pend_options p)) w
  else
    send (mkRequest (pend_method p) (pend_url p)
                    (if hasFiles (form w) then FormData data
                     else PlainData data)
                    (pend_options p)) w.

(** [options = {}]: the default of [post], [put] and [patch]. *)
Definition or_empty (options : option submit_options)
  : option submit_options :=
  match options with
  | Some o => Some o
  | None => Some (mkSubmitOptions None)
  end.

Definition post (url : string) (options : option submit_options) :=
  submit "post" url (or_empty options).
Definition put (url : string) (options : option submit_options) :=
  submit "put" url (or_empty options).
Definition patch (url : string) (options : option submit_options) :=
  submit "patch" url (or_empty options).
Definition delete (url : string) (options : option submit_options) :=
  submit "delete" url options.

(** [this.__inertia = inertia] and [this.__page = page].  The collaborator
    is kept outside the property store; what the assignment does to the
    store is what the trap does after it: the collaborator is an object or
    a function of the host, not one of the values [initial] holds, so it is
    [!==] to what the trap compares it with. *)
Definition assign_collaborator (this : receiver) (slot : string) (obj : Form)
  : Form :=
  match this with
  | Target => obj
  | Proxied =>
      if indexOf reservedFieldNames slot =? -1
      then write obj "isDirty" (VBool true)
      else obj
  end.

Definition withInertia (this : Form) : Form :=
  assign_collaborator Proxied "__inertia" this.

Definition withPage (this : Form) : Form :=
  assign_collaborator Proxied "__page" this.

(** The chain both factories run: [InertiaForm.create().withData(data)
    .withOptions(options).withInertia(...).withPage(...)].  [options] is
    [None] when it is [undefined]: [withOptions] has then written the
    defaults when [options.hasOwnProperty] throws. *)
Definition form_chain (data : data_arg) (options : option options_arg)
  : outcome Form :=
  create (Fields []) >>= fun this =>
  withData Proxied data this >>= fun this =>
  match options with
  | Some options =>
      Ok (withPage (withInertia (withOptions Proxied options this)))
  | None =>
      Throw TypeError
            (assign_options Proxied this (mkOptions "default" true false))
  end.

(** [useForm(data, options)], with the adapter present; [shallowReactive]
    passes reads and writes through. *)
Definition useForm (data : data_arg) (options : option options_arg)
  : outcome Form :=
  form_chain data options.

(** The factory [install] registers as [$inertia.form]:
    [(data = {}, options = {}) => ...]. *)
Definition inertia_form (data : option data_arg)
           (options : option options_arg) : outcome Form :=
  form_chain (match data with Some d => d | None => Fields [] end)
             (Some (match options with
                    | Some o => o
                    | None => mkOptionsArg None None None
                    end)).

(** Values compared by [===] as values: everything but objects. *)
Definition is_primitive (v : value) : bool :=
  match v with
  | VHost _ | VArr _ | VObj _ => false
  | _ => true
  end.

(** The body a request carries, as the mapping it was built from. *)
Definition body_data (b : payload) : option object :=
  match b with
  | NoPayload => None
  | PlainData d => Some d
  | FormData d => Some d
  end.

(** ** Properties of the property store *)

Lemma get_set_same (o : object) (k : string) (v : value) :
  get_prop (set_prop o k v) k = v.
Proof.
  unfold get_prop.
  induction o as [|[k' v'] rest IH]; simpl.
  - now rewrite String.eqb_refl.
  - destruct (String.eqb k k') eqn:E; simpl; rewrite E; auto.
Qed.

Lemma get_set_other (o : object) (k k' : string) (v : value) :
  k <> k' -> get_prop (set_prop o k v) k' = get_prop o k'.
Proof.
  intros Hne. unfold get_prop.
  induction o as [|[k0 v0] rest IH]; simpl.
  - destruct (String.eqb_spec k' k); [congruence | reflexivity].
  - destruct (String.eqb_spec k k0) as [->|]; simpl.
    + destruct (String.eqb_spec k' k0); [congruence | reflexivity].
    + destruct (String.eqb_spec k' k0); [reflexivity | exact IH].
Qed.

Lemma keys_set_prop (o : object) (k k' : string) (v : value) :
  In k' (keys (set_prop o k v)) <-> k' = k \/ In k' (keys o).
Proof.
  clear reservedFieldNames isFile same_object user_callback.
  unfold keys.
  induction o as [|[k0 v0] rest IH]; simpl.
  - intuition.
  - destruct (String.eqb_spec k k0) as [->|]; simpl.
    + intuition.
    + rewrite IH. intuition.
Qed.

Lemma indexOf_from_absent (l : list string) (x : string) :
  forall i, 0 <= i -> (indexOf_from i l x = -1 <-> ~ In x l).
Proof.
  clear reservedFieldNames isFile same_object user_callback.
  induction l as [|y rest IH]; intros i Hi; simpl.
  - intuition.
  - destruct (String.eqb_spec x y) as [->|Hne].
    + split; [lia | intros H; exfalso; apply H; now left].
    + rewrite IH by lia. intuition congruence.
Qed.

Lemma indexOf_absent (l : list string) (x : string) :
  (indexOf l x =? -1) = true <-> ~ In x l.
Proof.
  unfold indexOf. rewrite Z.eqb_eq. apply indexOf_from_absent. lia.
Qed.

Lemma indexOf_present (l : list string) (x : string) :
  In x l -> (indexOf l x =? -1) = false.
Proof.
  intros Hin. destruct (indexOf l x =? -1) eqn:E; [|reflexivity].
  apply indexOf_absent in E. contradiction.
Qed.

Lemma read_write_same (obj : Form) (k : string) (v : value) :
  read (write obj k v) k = v.
Proof. apply get_set_same. Qed.

Lemma read_write_other (obj : Form) (k k' : string) (v : value) :
  k <> k' -> read (write obj k v) k' = read obj k'.
Proof. apply get_set_other. Qed.

Lemma options_write (obj : Form) (k : string) (v : value) :
  __options (write obj k v) = __options obj.
Proof. reflexivity. Qed.

(** ** The set trap *)

Lemma strict_eq_sound :
  (forall a b, same_object a b = true -> a = b) ->
  forall a b, strict_eq a b = true -> a = b.
Proof.
  intros Hsame a b.
  destruct a, b; simpl; intros H; try discriminate; auto.
  - now apply Bool.eqb_prop in H; subst.
  - now apply Z.eqb_eq in H; subst.
  - now apply String.eqb_eq in H; subst.
Qed.

(** A write through the proxy changes, besides the property written, at
    most [isDirty]. *)
Lemma proxy_set_other (obj : Form) (prop k : string) (v : value) :
  k <> prop -> k <> "isDirty" ->
  read (proxy_set obj prop v) k = read obj k.
Proof.
  intros Hk Hd. unfold proxy_set.
  destruct (_ && _).
  - rewrite read_write_other by congruence. now apply read_write_other; congruence.
  - apply read_write_other; congruence.
Qed.

Lemma proxy_set_reserved (obj : Form) (prop : string) (v : value) :
  In prop reservedFieldNames -> proxy_set obj prop v = write obj prop v.
Proof.
  intros Hin. unfold proxy_set. now rewrite (indexOf_present _ _ Hin).
Qed.

Lemma proxy_set_options (obj : Form) (prop : string) (v : value) :
  __options (proxy_set obj prop v) = __options obj.
Proof. unfold proxy_set. now destruct (_ && _). Qed.

Lemma proxy_set_keeps_dirty (obj : Form) (prop : string) (v : value) :
  In "isDirty" reservedFieldNames ->
  ~ In prop reservedFieldNames ->
  isDirty obj = VBool true ->
  isDirty (proxy_set obj prop v) = VBool true.
Proof.
  intros Hres Hprop Hdirty. unfold proxy_set, isDirty.
  destruct (_ && _).
  - apply read_write_same.
  - rewrite read_write_other; [exact Hdirty | congruence].
Qed.

Lemma proxy_writes_keep_dirty (ws : list (string * value)) :
  In "isDirty" reservedFieldNames ->
  Forall (fun w => ~ In (fst w) reservedFieldNames) ws ->
  forall obj, isDirty obj = VBool true ->
              isDirty (proxy_writes obj ws) = VBool true.
Proof.
  intros Hres Hws. induction Hws as [|w ws Hw _ IH]; intros obj Hd; simpl.
  - exact Hd.
  - apply IH. now apply proxy_set_keeps_dirty.
Qed.

Lemma Forall_prefix {A : Type} (P : A -> Prop) (l : list A) :
  Forall P l -> forall n, Forall P (firstn n l).
Proof.
  induction 1 as [|x l Hx _ IH]; intros [|n]; simpl; auto.
Qed.

(** C1.  A write to a non-reserved field of a value that differs from the
    field's stored initial value makes [isDirty] true; it stays true
    after any run of further writes to non-reserved fields; and no such
    write, on any form, turns a true [isDirty] into something else. *)
Theorem write_sets_isDirty
        (obj : Form) (prop : string) (v : value)
        (later : list (string * value))
        (obj' : Form) (prop' : string) (v' : value) :
  In "initial" reservedFieldNames ->
  In "isDirty" reservedFieldNames ->
  (forall a b, same_object a b = true -> a = b) ->
  ~ In prop reservedFieldNames ->
  Forall (fun w => ~ In (fst w) reservedFieldNames) later ->
  v <> member (initial obj) prop ->
  ~ In prop' reservedFieldNames ->
  isDirty obj' = VBool true ->
  isDirty (proxy_set obj prop v) = VBool true
  /\ (forall n, isDirty (proxy_writes (proxy_set obj prop v) (firstn n later))
                = VBool true)
  /\ isDirty (proxy_set obj' prop' v') = VBool true.
Proof.
  intros Hinit Hdirty Hsame Hprop Hlater Hdiff Hprop' Hd'.
  assert (Hnow : isDirty (proxy_set obj prop v) = VBool true).
  { assert (Hi : initial (write obj prop v) = initial obj).
    { apply read_write_other. intros ->. contradiction. }
    unfold proxy_set. rewrite Hi.
    apply indexOf_absent in Hprop as ->. simpl.
    destruct (strict_eq v (member (initial obj) prop)) eqn:E.
    - apply (strict_eq_sound Hsame) in E. contradiction.
    - apply read_write_same. }
  split; [exact Hnow | split].
  - intros n. apply proxy_writes_keep_dirty; auto.
    now apply Forall_prefix.
  - now apply proxy_set_keeps_dirty.
Qed.

(** ** File detection *)

(** Induction over a value and, with it, over the members of its arrays
    and objects. *)
Lemma value_ind_deep (P : value -> Prop) :
  P VUndefined -> P VNull ->
  (forall b, P (VBool b)) -> (forall n, P (VNum n)) ->
  (forall s, P (VStr s)) -> (forall h, P (VHost h)) ->
  (forall elements, Forall P elements -> P (VArr elements)) ->
  (forall properties,
      Forall (fun p => P (snd p)) properties -> P (VObj properties)) ->
  forall v, P v.
Proof.
  intros Hu Hn Hb Hz Hs Hh Harr Hobj.
  fix IH 1. intros [| |b|n|s|h|elements|properties].
  - exact Hu.
  - exact Hn.
  - apply Hb.
  - apply Hz.
  - apply Hs.
  - apply Hh.
  - apply Harr.
    induction elements as [|e rest IHrest]; constructor;
      [apply IH | exact IHrest].
  - apply Hobj.
    induction properties as [|[k e] rest IHrest]; constructor;
      [apply IH | exact IHrest].
Qed.

Lemma hasFilesDeep_contains_file :
  (forall elements, isFile (VArr elements) = false) ->
  (forall properties, isFile (VObj properties) = false) ->
  forall v, hasFilesDeep v = true <-> contains_file v.
Proof.
  intros Harr Hobj v. split.
  - induction v as [| |b|n|s|h|elements IH|properties IH]
      using value_ind_deep; simpl; intros H;
      try discriminate; try (now apply file_leaf).
    + rewrite Forall_forall in IH.
      apply orb_true_iff in H as [H|H].
      * apply existsb_exists in H as (e & Hin & He).
        eapply file_in_sequence; [exact Hin|]. now apply IH.
      * destruct elements as [|first rest].
        -- now rewrite Harr in H.
        -- apply file_in_sequence with (v := first); [now left|].
           apply IH; [now left | exact H].
    + rewrite Forall_forall in IH.
      apply orb_true_iff in H as [H|H].
      * apply existsb_exists in H as ([k e] & Hin & He).
        eapply file_in_mapping; [exact Hin|]. now apply (IH _ Hin).
      * now rewrite Hobj in H.
  - induction 1 as [v Hleaf Hfile|properties key v Hin _ IH
                    |elements v Hin _ IH].
    + destruct v; simpl in *; auto; discriminate.
    + simpl. apply orb_true_iff. left. apply existsb_exists.
      now exists (key, v).
    + simpl. apply orb_true_iff. left. apply existsb_exists.
      now exists v.
Qed.

(** C2.  [hasFiles()] is true exactly when some field listed in [initial]
    has, somewhere in its current value, a leaf the file predicate holds
    of; a file inside a later element of a sequence is found as well.  The
    file predicate is one of leaves: false of arrays and plain objects. *)
Theorem hasFiles_iff_some_field_contains_file
        (this : Form) (before after : list value) (file : value) :
  (forall elements, isFile (VArr elements) = false) ->
  (forall properties, isFile (VObj properties) = false) ->
  (hasFiles this = true <->
   exists property,
     In property (keys (initial_object this))
     /\ contains_file (read this property))
  /\ (contains_file file ->
      hasFilesDeep (VArr (before ++ file :: after)) = true).
Proof.
  intros Harr Hobj. split.
  - unfold hasFiles. rewrite existsb_exists.
    split; intros (property & Hin & H); exists property; split; auto;
      now apply (hasFilesDeep_contains_file Harr Hobj).
  - intros Hfile. apply (hasFilesDeep_contains_file Harr Hobj).
    apply file_in_sequence with (v := file); [|exact Hfile].
    apply in_or_app. right. now left.
Qed.

(** ** [reset] *)

Lemma proxy_set_same (obj : Form) (prop : string) (v : value) :
  prop <> "isDirty" -> read (proxy_set obj prop v) prop = v.
Proof.
  intros Hd. unfold proxy_set. destruct (_ && _).
  - rewrite read_write_other by congruence. apply read_write_same.
  - apply read_write_same.
Qed.

(** What [merge(this, b)] leaves in a property other than [isDirty]: the
    value [b] has for it when [b] has the key, the old value otherwise. *)
Lemma merge_proxy_read (b : object) (k : string) :
  k <> "isDirty" ->
  forall (ks : list string) (obj : Form),
    read (fold_left (fun a key => proxy_set a key (get_prop b key)) ks obj) k
    = if in_dec string_dec k ks then get_prop b k else read obj k.
Proof.
  intros Hd. induction ks as [|key rest IH]; intros obj; simpl.
  - reflexivity.
  - rewrite IH.
    destruct (in_dec string_dec k rest) as [Hin|Hout].
    + now destruct (string_dec key k).
    + destruct (string_dec key k) as [->|Hne].
      * now apply proxy_set_same.
      * apply proxy_set_other; congruence.
Qed.

Lemma merge_proxy_options (b : object) (ks : list string) :
  forall obj : Form,
    __options (fold_left (fun a key => proxy_set a key (get_prop b key)) ks obj)
    = __options obj.
Proof.
  induction ks as [|key rest IH]; intros obj; simpl.
  - reflexivity.
  - rewrite IH. apply proxy_set_options.
Qed.

Lemma reset_read_field (this : Form) (field : string) :
  In "isDirty" reservedFieldNames ->
  In field (keys (initial_object this)) -> field <> "isDirty" ->
  read (reset this) field = get_prop (initial_object this) field.
Proof.
  intros Hres Hin Hd. unfold reset, merge.
  rewrite proxy_set_reserved by exact Hres.
  rewrite read_write_other by congruence.
  rewrite merge_proxy_read by exact Hd.
  now destruct (in_dec string_dec field (keys (initial_object this))).
Qed.

Lemma reset_read_other (this : Form) (k : string) :
  In "isDirty" reservedFieldNames ->
  ~ In k (keys (initial_object this)) -> k <> "isDirty" ->
  read (reset this) k = read this k.
Proof.
  intros Hres Hout Hd. unfold reset, merge.
  rewrite proxy_set_reserved by exact Hres.
  rewrite read_write_other by congruence.
  rewrite merge_proxy_read by exact Hd.
  now destruct (in_dec string_dec k (keys (initial_object this))).
Qed.

Lemma reset_clears_isDirty (this : Form) :
  In "isDirty" reservedFieldNames -> isDirty (reset this) = VBool false.
Proof.
  intros Hres. unfold reset, isDirty.
  rewrite proxy_set_reserved by exact Hres. apply read_write_same.
Qed.

(** C6.  [reset()] leaves in every field of [initial] the value [initial]
    stores for it, and leaves [isDirty] false. *)
Theorem reset_restores_initial_values (this : Form) (field : string) :
  In "isDirty" reservedFieldNames ->
  In field (keys (initial_object this)) ->
  field <> "isDirty" ->
  read (reset this) field = get_prop (initial_object this) field
  /\ isDirty (reset this) = VBool false.
Proof.
  intros Hres Hin Hd. split.
  - now apply reset_read_field.
  - now apply reset_clears_isDirty.
Qed.

(** ** [data] *)

Lemma data_fold_keys (this : Form) (ks : list string) :
  forall (d : object) (k : string),
    In k (keys (fold_left (fun data property =>
                             set_prop data property (read this property))
                          ks d))
    <-> In k (keys d) \/ In k ks.
Proof.
  clear reservedFieldNames isFile same_object user_callback.
  induction ks as [|key rest IH]; intros d k; simpl.
  - intuition.
  - rewrite IH, keys_set_prop. intuition.
Qed.

Lemma data_fold_get (this : Form) (ks : list string) :
  forall (d : object) (k : string),
    get_prop (fold_left (fun data property =>
                           set_prop data property (read this property))
                        ks d) k
    = if in_dec string_dec k ks then read this k else get_prop d k.
Proof.
  induction ks as [|key rest IH]; intros d k; simpl.
  - reflexivity.
  - rewrite IH.
    destruct (in_dec string_dec k rest) as [Hin|Hout].
    + now destruct (string_dec key k).
    + destruct (string_dec key k) as [->|Hne].
      * apply get_set_same.
      * now apply get_set_other.
Qed.

(** C7, as amended.  The keys of [data()] are the fields of [initial] and
    the marker [_error_bag]; every field of [initial] carries its current
    value; the marker carries the configured bag name when no field of
    [initial] is itself called [_error_bag]. *)
Theorem data_fields_and_marker (this : Form) (key field : string) :
  (In key (keys (data this)) <->
   key = "_error_bag" \/ In key (keys (initial_object this)))
  /\ (In field (keys (initial_object this)) ->
      get_prop (data this) field = read this field)
  /\ (~ In "_error_bag" (keys (initial_object this)) ->
      get_prop (data this) "_error_bag" = VStr (bag (__options this))).
Proof.
  clear reservedFieldNames isFile same_object user_callback.
  unfold data. repeat split.
  - rewrite data_fold_keys. simpl. intuition.
  - rewrite data_fold_keys. simpl. intuition.
  - intros Hin. rewrite data_fold_get.
    now destruct (in_dec string_dec field (keys (initial_object this))).
  - intros Hout. rewrite data_fold_get.
    now destruct (in_dec string_dec "_error_bag" (keys (initial_object this))).
Qed.

(** ** [withOptions] *)

(** The options a call [withOptions(options)] leaves: the defaults, with
    the keys [options] owns put over them. *)
Lemma withOptions_result (this : receiver) (options : options_arg)
      (obj : Form) :
  __options (withOptions this options obj)
  = mkOptions
      (match arg_bag options with Some b => b | None => "default" end)
      (match arg_resetOnSuccess options with Some b => b | None => true end)
      (match arg_setInitialOnSuccess options with
       | Some b => b | None => false end).
Proof.
  unfold withOptions.
  assert (H : __options (assign_options this obj (mkOptions "default" true false))
              = mkOptions "default" true false).
  { unfold assign_options. destruct this; [reflexivity|].
    now destruct (_ =? _). }
  revert H. generalize (assign_options this obj (mkOptions "default" true false)).
  intros f H.
  destruct options as [[b|] [r|] [i|]]; simpl; rewrite ?H; reflexivity.
Qed.

(** C10.  [withOptions] starts from the defaults on every call and puts
    over them only the keys its argument owns: what an earlier call had set
    is gone after a later one, whatever the later one names. *)
Theorem withOptions_starts_from_defaults
        (this this' : receiver) (earlier later : options_arg) (obj : Form) :
  __options (withOptions this later obj)
  = mkOptions
      (match arg_bag later with Some b => b | None => "default" end)
      (match arg_resetOnSuccess later with Some b => b | None => true end)
      (match arg_setInitialOnSuccess later with
       | Some b => b | None => false end)
  /\ __options (withOptions this later (withOptions this' earlier obj))
     = __options (withOptions this later obj).
Proof.
  split.
  - apply withOptions_result.
  - now rewrite !withOptions_result.
Qed.

(** ** The end of a round trip *)

Lemma hasErrors_on_form_proxy_set (w : World) (prop : string) (v : value) :
  hasErrors (on_form (fun this => proxy_set this prop v) w) = hasErrors w.
Proof.
  unfold hasErrors, on_form, inertiaPage. simpl.
  now rewrite proxy_set_options.
Qed.

Lemma hasErrors_false (w : World) :
  lookup (errorBags (page w)) (bag (__options (form w))) = None
  \/ lookup (errorBags (page w)) (bag (__options (form w))) = Some [] ->
  hasErrors w = false.
Proof.
  unfold hasErrors, inertiaPage. now intros [-> | ->].
Qed.

Lemma hasErrors_true (w : World) (errorBag : dict (list string)) :
  lookup (errorBags (page w)) (bag (__options (form w))) = Some errorBag ->
  errorBag <> [] ->
  hasErrors w = true.
Proof.
  unfold hasErrors, inertiaPage. intros -> Hne.
  destruct errorBag; [congruence | reflexivity].
Qed.

(** The three flag writes of a successful round trip, in order. *)
Lemma response_bookkeeping_success (w : World) :
  hasErrors w = false ->
  let flagged :=
    proxy_set
      (proxy_set (proxy_set (form w) "processing" (VBool false))
                 "successful" (VBool true))
      "recentlySuccessful" (VBool true) in
  form (response_bookkeeping w)
  = (if resetOnSuccess (__options (form w)) then reset flagged
     else if setInitialOnSuccess (__options (form w)) then
            proxy_set
              (setInitialValues Proxied flagged
                                (without_error_bag (data flagged)))
              "isDirty" (VBool false)
          else flagged)
  /\ timers (response_bookkeeping w)
     = (timers w ++ [(2000, ClearRecentlySuccessful)])%list.
Proof.
  intros Hno flagged. unfold response_bookkeeping.
  rewrite hasErrors_on_form_proxy_set, Hno. simpl.
  unfold onSuccess, on_form, setTimeout, with_form. simpl.
  rewrite !proxy_set_options.
  destruct (resetOnSuccess (__options (form w)));
    [|destruct (setInitialOnSuccess (__options (form w)))]; simpl; auto.
Qed.

Lemma response_bookkeeping_failure (w : World) :
  hasErrors w = true ->
  form (response_bookkeeping w)
  = proxy_set
      (proxy_set (proxy_set (form w) "processing" (VBool false))
                 "successful" (VBool false))
      "recentlySuccessful" (VBool false)
  /\ timers (response_bookkeeping w) = timers w.
Proof.
  intros Hyes. unfold response_bookkeeping.
  rewrite hasErrors_on_form_proxy_set, Hyes. simpl.
  unfold onFail, on_form, with_form. simpl. auto.
Qed.

(** Without a callback of the caller's, the arrow ends in the state the
    bookkeeping leaves. *)
Lemma submit_onSuccess_no_callback
      (options : option submit_options) (pg : Page) (w : World) :
  match options with
  | Some o => user_onSuccess o = None
  | None => True
  end ->
  state_of (submit_onSuccess options pg w) = response_bookkeeping w.
Proof.
  unfold submit_onSuccess. destruct options as [o|]; [|reflexivity].
  now intros ->.
Qed.

Lemma setInitialValues_other (obj : Form) (vals : object) (k : string) :
  k <> "initial" -> k <> "isDirty" ->
  read (setInitialValues Proxied obj vals) k = read obj k.
Proof.
  intros Hi Hd. unfold setInitialValues. simpl.
  rewrite read_write_other by congruence.
  apply proxy_set_other; congruence.
Qed.

Lemma initial_object_write (obj : Form) (k : string) (v : value) :
  k <> "initial" -> initial_object (write obj k v) = initial_object obj.
Proof.
  intros Hk. unfold initial_object, initial.
  now rewrite read_write_other.
Qed.

(** C3, as amended.  On a form whose [initial] has no reserved name among
    its fields, when the page has no error bag, or an empty one, under the
    configured name, the round trip ends with [successful] true,
    [processing] false and [recentlySuccessful] true; with [resetOnSuccess]
    on, the default, every field of [initial] holds its initial value again
    and [isDirty] is false.  A [withData] that returns leaves such a form
    ([withData_initial_fields_free]); one that throws on a reserved name
    does not. *)
Theorem successful_response_resets_form
        (w : World) (field : string)
        (options : option submit_options) (pg : Page) :
  In "processing" reservedFieldNames ->
  In "successful" reservedFieldNames ->
  In "recentlySuccessful" reservedFieldNames ->
  In "isDirty" reservedFieldNames ->
  Forall (fun k => ~ In k reservedFieldNames)
         (keys (initial_object (form w))) ->
  lookup (errorBags (page w)) (bag (__options (form w))) = None
  \/ lookup (errorBags (page w)) (bag (__options (form w))) = Some [] ->
  let w' := response_bookkeeping w in
  successful (form w') = VBool true
  /\ processing (form w') = VBool false
  /\ recentlySuccessful (form w') = VBool true
  /\ (resetOnSuccess (__options (form w)) = true ->
      (In field (keys (initial_object (form w))) ->
       read (form w') field = get_prop (initial_object (form w)) field)
      /\ isDirty (form w') = VBool false)
  /\ (match options with
      | Some o => user_onSuccess o = None
      | None => True
      end ->
      state_of (submit_onSuccess options pg w) = w').
Proof.
  intros Hp Hs Hr Hd Hwf Hbag w'.
  destruct (response_bookkeeping_success w (hasErrors_false w Hbag))
    as [Hform _].
  fold w' in Hform. rewrite Forall_forall in Hwf.
  rewrite !proxy_set_reserved in Hform by assumption.
  set (flagged :=
         write (write (write (form w) "processing" (VBool false))
                      "successful" (VBool true))
               "recentlySuccessful" (VBool true)) in *.
  assert (Hinit : initial_object flagged = initial_object (form w)).
  { unfold flagged. now rewrite !initial_object_write by discriminate. }
  assert (Hflag_s : read flagged "successful" = VBool true).
  { unfold flagged. rewrite read_write_other by discriminate.
    apply read_write_same. }
  assert (Hflag_p : read flagged "processing" = VBool false).
  { unfold flagged. rewrite !read_write_other by discriminate.
    apply read_write_same. }
  assert (Hflag_r : read flagged "recentlySuccessful" = VBool true).
  { unfold flagged. apply read_write_same. }
  assert (Hkeep : forall k, In k reservedFieldNames -> k <> "isDirty" ->
                            k <> "initial" ->
                            read (form w') k = read flagged k).
  { intros k Hk Hkd Hki. rewrite Hform.
    destruct (resetOnSuccess (__options (form w)));
      [|destruct (setInitialOnSuccess (__options (form w)))].
    - apply reset_read_other; auto. rewrite Hinit. intros Hin.
      now apply (Hwf k Hin).
    - rewrite read_write_other by congruence.
      now apply setInitialValues_other.
    - reflexivity. }
  unfold successful, processing, recentlySuccessful.
  rewrite !Hkeep by (assumption || discriminate).
  split; [exact Hflag_s|]. split; [exact Hflag_p|]. split; [exact Hflag_r|].
  split.
  - intros Hreset. rewrite Hform, Hreset. split.
    + intros Hin. rewrite <- Hinit.
      apply reset_read_field; auto.
      * now rewrite Hinit.
      * intros ->. now apply (Hwf "isDirty" Hin).
    + now apply reset_clears_isDirty.
  - apply submit_onSuccess_no_callback.
Qed.

(** C4.  When the page has a non-empty error bag under the configured
    name, the round trip ends with [successful], [recentlySuccessful] and
    [processing] false, and with every other property of the form (each
    field, [initial], [isDirty]) and the options as they were. *)
Theorem failed_response_leaves_fields
        (w : World) (errorBag : dict (list string)) (k : string)
        (options : option submit_options) (pg : Page) :
  In "processing" reservedFieldNames ->
  In "successful" reservedFieldNames ->
  In "recentlySuccessful" reservedFieldNames ->
  lookup (errorBags (page w)) (bag (__options (form w))) = Some errorBag ->
  errorBag <> [] ->
  k <> "processing" -> k <> "successful" -> k <> "recentlySuccessful" ->
  let w' := response_bookkeeping w in
  successful (form w') = VBool false
  /\ recentlySuccessful (form w') = VBool false
  /\ processing (form w') = VBool false
  /\ read (form w') k = read (form w) k
  /\ initial (form w') = initial (form w)
  /\ isDirty (form w') = isDirty (form w)
  /\ __options (form w') = __options (form w)
  /\ (match options with
      | Some o => user_onSuccess o = None
      | None => True
      end ->
      state_of (submit_onSuccess options pg w) = w').
Proof.
  intros Hp Hs Hr Hbag Hne Hkp Hks Hkr w'.
  destruct (response_bookkeeping_failure w (hasErrors_true w Hbag Hne))
    as [Hform _].
  fold w' in Hform.
  rewrite !proxy_set_reserved in Hform by assumption.
  unfold successful, recentlySuccessful, processing, initial, isDirty.
  rewrite Hform.
  repeat split;
    try (rewrite ?read_write_other by (discriminate || congruence);
         (apply read_write_same || reflexivity)).
  apply submit_onSuccess_no_callback.
Qed.

(** C9.  A successful round trip hands [setTimeout] one step, with a delay
    of 2000 ms; run on the form, whenever that is, the step leaves
    [recentlySuccessful] false. *)
Theorem success_schedules_clearing_recentlySuccessful (w later : World) :
  lookup (errorBags (page w)) (bag (__options (form w))) = None
  \/ lookup (errorBags (page w)) (bag (__options (form w))) = Some [] ->
  timers (response_bookkeeping w)
  = (timers w ++ [(2000, ClearRecentlySuccessful)])%list
  /\ recentlySuccessful (form (fire ClearRecentlySuccessful later))
     = VBool false.
Proof.
  intros Hbag. split.
  - apply (response_bookkeeping_success w (hasErrors_false w Hbag)).
  - unfold fire, on_form, recentlySuccessful. simpl.
    apply proxy_set_same. discriminate.
Qed.

(** C5.  [submit] with a request type outside get, post, put, patch and
    delete throws, and leaves the world as it was: [processing] and
    [successful] untouched, no token awaited, no request made. *)
Theorem submit_rejects_request_type
        (requestType url : string) (options : option submit_options)
        (w : World) :
  ~ In requestType requestTypes ->
  submit requestType url options w
  = Throw (Error ("`" ++ requestType
                  ++ "` is not a valid request type, must be one of: "
                  ++ "`get`, `post`, `put`, `patch`, `delete`.")) w
  /\ processing (form (state_of (submit requestType url options w)))
     = processing (form w)
  /\ successful (form (state_of (submit requestType url options w)))
     = successful (form w)
  /\ awaiting_token (state_of (submit requestType url options w))
     = awaiting_token w
  /\ requests (state_of (submit requestType url options w)) = requests w.
Proof.
  intros Hout.
  assert (H : submit requestType url options w
              = Throw (Error ("`" ++ requestType
                  ++ "` is not a valid request type, must be one of: "
                  ++ "`get`, `post`, `put`, `patch`, `delete`.")) w).
  { unfold submit, __validateRequestType.
    apply indexOf_absent in Hout. rewrite Hout. reflexivity. }
  rewrite H. simpl. auto.
Qed.

(** ** The error accessors *)

Lemma fold_concat (l : list (list string)) :
  forall acc, fold_left (fun a b => (a ++ b)%list) l acc
              = (acc ++ concat l)%list.
Proof.
  induction l as [|x rest IH]; intros acc; simpl.
  - now rewrite app_nil_r.
  - now rewrite IH, app_assoc.
Qed.

(** [errors()]: the messages of the configured bag, field after field. *)
Lemma errors_of_all (w : World) :
  errors None w
  = match lookup (errorBags (page w)) (bag (__options (form w))) with
    | Some errorBag => concat (values errorBag)
    | None => []
    end.
Proof.
  unfold errors, hasErrors, inertiaPage.
  destruct (lookup _ _) as [errorBag|]; [|reflexivity].
  destruct errorBag as [|entry rest]; [reflexivity|].
  change (0 <? Z.of_nat (length (keys (entry :: rest)))) with true.
  cbv iota. apply fold_concat.
Qed.

(** [errors(field)] when the field's first message is not empty. *)
Lemma errors_of_field (w : World) (field : string)
      (errorBag : dict (list string)) (first : string) (rest : list string) :
  lookup (errorBags (page w)) (bag (__options (form w))) = Some errorBag ->
  lookup errorBag field = Some (first :: rest) ->
  first <> "" ->
  errors (Some field) w = first :: rest.
Proof.
  intros Hbag Hfield Hfirst.
  assert (Hyes : hasErrors w = true).
  { apply (hasErrors_true w Hbag). intros ->. discriminate. }
  unfold errors, error, inertiaPage. rewrite Hyes, Hbag, Hfield. simpl.
  destruct (String.eqb_spec first ""); [contradiction | reflexivity].
Qed.

(** [errors(field)] when the field's first message is the empty string. *)
Lemma errors_of_field_empty_first (w : World) (field : string)
      (errorBag : dict (list string)) (rest : list string) :
  lookup (errorBags (page w)) (bag (__options (form w))) = Some errorBag ->
  lookup errorBag field = Some ("" :: rest) ->
  errors (Some field) w = [].
Proof.
  intros Hbag Hfield.
  assert (Hyes : hasErrors w = true).
  { apply (hasErrors_true w Hbag). intros ->. discriminate. }
  unfold errors, error, inertiaPage. now rewrite Hyes, Hbag, Hfield.
Qed.

(** [errors(field)] when the bag has nothing for the field. *)
Lemma errors_of_field_absent (w : World) (field : string) :
  match lookup (errorBags (page w)) (bag (__options (form w))) with
  | Some errorBag =>
      lookup errorBag field = None \/ lookup errorBag field = Some []
  | None => True
  end ->
  errors (Some field) w = [].
Proof.
  unfold errors, error, inertiaPage.
  destruct (lookup _ _) as [errorBag|].
  - intros [-> | ->]; now destruct (hasErrors w).
  - now destruct (hasErrors w).
Qed.

(** ** [withData] on well-formed data *)

Lemma withData_fields_ok (this : receiver) (data : object)
      (fields : list string) :
  Forall (fun k => ~ In k reservedFieldNames) fields ->
  forall obj, exists obj', withData_fields this data fields obj = Ok obj'.
Proof.
  induction 1 as [|field rest Hfield _ IH]; intros obj; simpl.
  - now exists obj.
  - unfold guardAgainstReservedFieldName.
    apply indexOf_absent in Hfield. rewrite Hfield. simpl. apply IH.
Qed.

(** [withData] returns when no field of the data bears a reserved name. *)
Lemma withData_returns (this : receiver) (data : object) (obj : Form) :
  Forall (fun k => ~ In k reservedFieldNames) (keys data) ->
  exists obj', withData this (Fields data) obj = Ok obj'.
Proof.
  intros Hwf. unfold withData.
  destruct (withData_fields_ok this data Hwf
              (assign this
                 (assign this (setInitialValues this obj data)
                         "processing" (VBool false))
                 "successful" (VBool false))) as [obj' ->].
  simpl. eauto.
Qed.

Lemma withData_fields_initial (this : receiver) (data : object)
      (fields : list string) :
  In "initial" reservedFieldNames ->
  forall obj obj',
    withData_fields this data fields obj = Ok obj' ->
    Forall (fun k => ~ In k reservedFieldNames) fields
    /\ initial obj' = initial obj.
Proof.
  intros Hres. induction fields as [|field rest IH]; intros obj obj'; simpl.
  - intros [= ->]. now split.
  - unfold guardAgainstReservedFieldName.
    destruct (indexOf reservedFieldNames field =? -1) eqn:E; simpl;
      [|discriminate].
    apply indexOf_absent in E. intros Hrun.
    destruct (IH _ _ Hrun) as [Hrest Hinit]. split.
    + now constructor.
    + rewrite Hinit. unfold initial.
      assert (Hne : field <> "initial") by (intros ->; contradiction).
      destruct this; simpl.
      * apply read_write_other; congruence.
      * apply proxy_set_other; [congruence | discriminate].
Qed.

Lemma keys_merge_set_prop (b : object) (ks : list string) :
  forall (a : object) (k : string),
    In k (keys (fold_left (fun a key => set_prop a key (get_prop b key)) ks a))
    <-> In k (keys a) \/ In k ks.
Proof.
  clear reservedFieldNames isFile same_object user_callback.
  induction ks as [|key rest IH]; intros a k; simpl.
  - tauto.
  - rewrite IH, keys_set_prop. intuition.
Qed.

(** A form [withData] returns has, for the fields of its [initial], the
    fields of the data, none of which bears a reserved name. *)
Lemma withData_initial_fields_free (data : object) (obj obj' : Form) :
  In "initial" reservedFieldNames ->
  In "isDirty" reservedFieldNames ->
  withData Proxied (Fields data) obj = Ok obj' ->
  Forall (fun k => ~ In k reservedFieldNames) (keys (initial_object obj'))
  /\ (forall k, In k (keys (initial_object obj')) <-> In k (keys data)).
Proof.
  intros Hinit Hdirty. unfold withData.
  destruct (withData_fields _ _ _ _) as [looped|e looped] eqn:Hloop; simpl;
    [|discriminate].
  intros [= <-].
  destruct (withData_fields_initial _ _ _ Hinit _ Hloop) as [Hfree Hkept].
  cbn [assign].
  assert (Hslot : initial_object
                    (proxy_set looped "isDirty" (VBool false))
                  = merge set_prop [] data).
  { unfold initial_object, initial in *. simpl.
    rewrite proxy_set_reserved by exact Hdirty.
    rewrite read_write_other by discriminate.
    rewrite Hkept. simpl.
    rewrite !proxy_set_other by discriminate.
    unfold setInitialValues. cbv zeta. rewrite read_write_same.
    unfold initial_object, initial. simpl.
    rewrite proxy_set_reserved by exact Hinit.
    now rewrite read_write_same. }
  rewrite Hslot.
  assert (Hkeys : forall k, In k (keys (merge set_prop [] data))
                            <-> In k (keys data)).
  { intros k. unfold merge. rewrite keys_merge_set_prop. simpl. tauto. }
  split; [|exact Hkeys].
  rewrite Forall_forall in *. intros k Hk. apply Hfree. now apply Hkeys.
Qed.

(** [withData] throws on the first field that bears a reserved name. *)
Lemma withData_fields_throws (this : receiver) (data : object)
      (before after : list string) (field : string) :
  Forall (fun k => ~ In k reservedFieldNames) before ->
  In field reservedFieldNames ->
  forall obj, exists obj',
      withData_fields this data (before ++ field :: after) obj
      = Throw (ReservedFieldName field) obj'.
Proof.
  intros Hbefore Hfield.
  induction Hbefore as [|k rest Hk _ IH]; intros obj; simpl.
  - unfold guardAgainstReservedFieldName.
    rewrite (indexOf_present _ _ Hfield). simpl. now exists obj.
  - unfold guardAgainstReservedFieldName.
    apply indexOf_absent in Hk. rewrite Hk. simpl. apply IH.
Qed.

(** ** More on the set trap *)

Lemma strict_eq_refl_primitive (v : value) :
  is_primitive v = true -> strict_eq v v = true.
Proof.
  destruct v; simpl; intros H; try discriminate; auto.
  - apply Bool.eqb_reflx.
  - apply Z.eqb_refl.
  - apply String.eqb_refl.
Qed.

(** X1.  A write through the proxy to a name other than [isDirty] and
    [__options] stores the value under the name written and leaves the
    options and every other property alone, save [isDirty]. *)
Theorem proxy_set_stores_and_frames
        (obj : Form) (prop k : string) (v : value) :
  prop <> "isDirty" -> prop <> "__options" ->
  k <> prop -> k <> "isDirty" ->
  read (proxy_set obj prop v) prop = v
  /\ read (proxy_set obj prop v) k = read obj k
  /\ __options (proxy_set obj prop v) = __options obj.
Proof.
  intros Hd _ Hk Hkd. repeat split.
  - now apply proxy_set_same.
  - now apply proxy_set_other.
  - apply proxy_set_options.
Qed.

(** X2.  Writing to a field that [initial] lists the value [initial]
    stores for it, when that value is a string, a boolean, [null] or
    [undefined], does not raise [isDirty]: the flag stays what it was. *)
Theorem write_back_of_initial_primitive
        (obj : Form) (prop : string) (v : value) :
  In prop (keys (initial_object obj)) ->
  is_primitive v = true ->
  (forall n, v <> VNum n) ->
  prop <> "initial" -> prop <> "isDirty" ->
  v = member (initial obj) prop ->
  read (proxy_set obj prop v) prop = v
  /\ isDirty (proxy_set obj prop v) = isDirty obj.
Proof.
  intros _ Hprim _ Hi Hd Hv.
  assert (Heq : proxy_set obj prop v = write obj prop v).
  { unfold proxy_set.
    assert (Hinit : initial (write obj prop v) = initial obj)
      by (apply read_write_other; exact Hd || congruence).
    rewrite Hinit, <- Hv, (strict_eq_refl_primitive _ Hprim).
    simpl. now rewrite andb_false_r. }
  rewrite Heq. split; [apply read_write_same|].
  unfold isDirty. apply read_write_other. congruence.
Qed.

(** X3.  A write to a reserved name is a plain store: no other property
    changes, so [isDirty] is raised by none of them, and a caller who
    assigns [isDirty] itself sets the flag to the value assigned. *)
Theorem reserved_write_is_plain_store
        (obj : Form) (prop k : string) (v : value) :
  In prop reservedFieldNames ->
  k <> prop ->
  read (proxy_set obj prop v) prop = v
  /\ read (proxy_set obj prop v) k = read obj k.
Proof.
  intros Hres Hk. rewrite proxy_set_reserved by exact Hres. split.
  - apply read_write_same.
  - apply read_write_other. congruence.
Qed.

(** X4.  A write of an object to a non-reserved field raises [isDirty]
    unless the object written is the very object [initial] holds for the
    field: equal contents do not count. *)
Theorem object_write_sets_isDirty
        (obj : Form) (prop : string) (v : value) :
  In "initial" reservedFieldNames ->
  ~ In prop reservedFieldNames ->
  is_primitive v = false ->
  same_object v (member (initial obj) prop) = false ->
  isDirty (proxy_set obj prop v) = VBool true.
Proof.
  intros Hinit Hprop Hobj Hother.
  assert (Hi : initial (write obj prop v) = initial obj).
  { apply read_write_other. intros ->. contradiction. }
  unfold proxy_set. rewrite Hi.
  apply indexOf_absent in Hprop. rewrite Hprop.
  assert (Hneq : strict_eq v (member (initial obj) prop) = false).
  { destruct v; simpl in *; try discriminate; exact Hother. }
  rewrite Hneq. simpl. apply read_write_same.
Qed.

(** ** [withData] and [create] *)

Lemma withData_fields_free (this : receiver) (data : object)
      (fields : list string) :
  Forall (fun k => ~ In k reservedFieldNames) fields ->
  forall obj,
    withData_fields this data fields obj
    = Ok (fold_left (fun a key => assign this a key (get_prop data key))
                    fields obj).
Proof.
  induction 1 as [|field rest Hfield _ IH]; intros obj; simpl.
  - reflexivity.
  - unfold guardAgainstReservedFieldName.
    apply indexOf_absent in Hfield. rewrite Hfield. simpl. apply IH.
Qed.

Lemma get_merge_set_prop (b : object) (ks : list string) :
  forall (a : object) (k : string),
    get_prop (fold_left (fun a key => set_prop a key (get_prop b key)) ks a) k
    = if in_dec string_dec k ks then get_prop b k else get_prop a k.
Proof.
  induction ks as [|key rest IH]; intros a k; simpl.
  - reflexivity.
  - rewrite IH.
    destruct (in_dec string_dec k rest) as [Hin|Hout].
    + now destruct (string_dec key k).
    + destruct (string_dec key k) as [->|Hne].
      * apply get_set_same.
      * now apply get_set_other.
Qed.

(** What [setInitialValues] leaves in the [initial] slot. *)
Lemma setInitialValues_initial (obj : Form) (vals : object) :
  In "initial" reservedFieldNames ->
  initial (setInitialValues Proxied obj vals)
  = VObj (merge set_prop [] vals).
Proof.
  intros Hres. unfold setInitialValues. cbv zeta.
  unfold initial at 1. rewrite read_write_same.
  unfold initial_object, initial. simpl.
  rewrite proxy_set_reserved by exact Hres.
  now rewrite read_write_same.
Qed.

(** The form [withData] returns on data free of reserved names, property
    by property. *)
Lemma withData_result (data : object) (obj : Form) :
  In "initial" reservedFieldNames ->
  In "isDirty" reservedFieldNames ->
  Forall (fun k => ~ In k reservedFieldNames) (keys data) ->
  exists obj',
    withData Proxied (Fields data) obj = Ok obj'
    /\ initial obj' = VObj (merge set_prop [] data)
    /\ isDirty obj' = VBool false
    /\ __options obj' = __options obj
    /\ (forall k, In k (keys data) -> read obj' k = get_prop data k)
    /\ (forall k, ~ In k (keys data) -> k <> "isDirty" -> k <> "initial" ->
                  k <> "processing" -> k <> "successful" ->
                  read obj' k = read obj k)
    /\ (In "processing" reservedFieldNames ->
        processing obj' = VBool false)
    /\ (In "successful" reservedFieldNames ->
        successful obj' = VBool false).
Proof.
  intros Hinit Hdirty Hfree. unfold withData.
  rewrite (withData_fields_free Proxied data Hfree). simpl.
  eexists. split; [reflexivity|].
  rewrite Forall_forall in Hfree.
  assert (Hnd : forall k, In k (keys data) -> k <> "isDirty")
    by (intros k Hk ->; now apply (Hfree _ Hk)).
  assert (Hni : ~ In "initial" (keys data))
    by (intros Hk; now apply (Hfree _ Hk)).
  rewrite proxy_set_reserved by exact Hdirty.
  unfold initial, isDirty, processing, successful.
  repeat split.
  - rewrite read_write_other by discriminate.
    rewrite merge_proxy_read by discriminate.
    destruct (in_dec string_dec "initial" (keys data)); [contradiction|].
    rewrite !proxy_set_other by discriminate.
    now apply setInitialValues_initial.
  - apply read_write_same.
  - simpl. rewrite merge_proxy_options, !proxy_set_options.
    unfold setInitialValues. simpl. apply proxy_set_options.
  - intros k Hk. pose proof (Hnd k Hk) as Hkd.
    rewrite read_write_other by congruence.
    rewrite merge_proxy_read by exact Hkd.
    now destruct (in_dec string_dec k (keys data)).
  - intros k Hk Hkd Hki Hkp Hks.
    rewrite read_write_other by congruence.
    rewrite merge_proxy_read by exact Hkd.
    destruct (in_dec string_dec k (keys data)); [contradiction|].
    rewrite !proxy_set_other by congruence.
    now apply setInitialValues_other.
  - intros Hp.
    rewrite read_write_other by discriminate.
    rewrite merge_proxy_read by discriminate.
    destruct (in_dec string_dec "processing" (keys data)) as [Hk|_];
      [exfalso; now apply (Hfree _ Hk)|].
    rewrite proxy_set_other by discriminate.
    apply proxy_set_same. discriminate.
  - intros Hs.
    rewrite read_write_other by discriminate.
    rewrite merge_proxy_read by discriminate.
    destruct (in_dec string_dec "successful" (keys data)) as [Hk|_];
      [exfalso; now apply (Hfree _ Hk)|].
    apply proxy_set_same. discriminate.
Qed.

Lemma merge_set_prop_get (data : object) (k : string) :
  In k (keys data) -> get_prop (merge set_prop [] data) k = get_prop data k.
Proof.
  intros Hk. unfold merge. rewrite get_merge_set_prop.
  now destruct (in_dec string_dec k (keys data)).
Qed.

(** X5.  [withData] on data free of reserved names returns; afterwards
    every field of the data holds the data's value, in the form and in
    [initial] alike, [isDirty], [processing] and [successful] are false,
    and the options are as before. *)
Theorem withData_loads_fields
        (data : object) (obj : Form) (field : string) :
  In "initial" reservedFieldNames ->
  In "isDirty" reservedFieldNames ->
  In "processing" reservedFieldNames ->
  In "successful" reservedFieldNames ->
  Forall (fun k => ~ In k reservedFieldNames) (keys data) ->
  In field (keys data) ->
  exists obj',
    withData Proxied (Fields data) obj = Ok obj'
    /\ read obj' field = get_prop data field
    /\ member (initial obj') field = get_prop data field
    /\ isDirty obj' = VBool false
    /\ processing obj' = VBool false
    /\ successful obj' = VBool false
    /\ __options obj' = __options obj.
Proof.
  intros Hinit Hdirty Hp Hs Hfree Hfield.
  destruct (@withData_result data obj Hinit Hdirty Hfree)
    as (obj' & Hrun & Hi & Hd & Ho & Hin & _ & Hproc & Hsucc).
  exists obj'. repeat split; auto.
  rewrite Hi. simpl. now apply merge_set_prop_get.
Qed.

(** X6.  [withData] leaves [recentlySuccessful], and every property that
    is neither a field of the data nor one of [isDirty], [initial],
    [processing] and [successful], as it found them. *)
Theorem withData_keeps_other_properties
        (data : object) (obj : Form) (k : string) :
  In "initial" reservedFieldNames ->
  In "isDirty" reservedFieldNames ->
  Forall (fun k => ~ In k reservedFieldNames) (keys data) ->
  ~ In k (keys data) ->
  k <> "isDirty" -> k <> "initial" ->
  k <> "processing" -> k <> "successful" ->
  exists obj',
    withData Proxied (Fields data) obj = Ok obj'
    /\ read obj' k = read obj k.
Proof.
  intros Hinit Hdirty Hfree Hk Hkd Hki Hkp Hks.
  destruct (@withData_result data obj Hinit Hdirty Hfree)
    as (obj' & Hrun & _ & _ & _ & _ & Hout & _).
  exists obj'. split; [exact Hrun|]. now apply Hout.
Qed.

Lemma field_names_keys (names : list string) :
  forall (carry : object) (k : string),
    In k (keys (fold_left (fun carry element =>
                             set_prop carry element (VStr ""))
                          names carry))
    <-> In k (keys carry) \/ In k names.
Proof.
  clear reservedFieldNames isFile same_object user_callback.
  induction names as [|name rest IH]; intros carry k; simpl.
  - tauto.
  - rewrite IH, keys_set_prop. intuition.
Qed.

Lemma field_names_get (names : list string) :
  forall (carry : object) (k : string),
    get_prop (fold_left (fun carry element =>
                           set_prop carry element (VStr ""))
                        names carry) k
    = if in_dec string_dec k names then VStr "" else get_prop carry k.
Proof.
  induction names as [|name rest IH]; intros carry k; simpl.
  - reflexivity.
  - rewrite IH.
    destruct (in_dec string_dec k rest) as [Hin|Hout].
    + now destruct (string_dec name k).
    + destruct (string_dec name k) as [->|Hne].
      * apply get_set_same.
      * now apply get_set_other.
Qed.

(** X7.  [withData] on an array of field names free of reserved names
    returns, with every name a field holding the empty string, in the form
    and in [initial], and with [isDirty] false. *)
Theorem withData_field_names
        (names : list string) (obj : Form) (name : string) :
  In "initial" reservedFieldNames ->
  In "isDirty" reservedFieldNames ->
  Forall (fun k => ~ In k reservedFieldNames) names ->
  In name names ->
  exists obj',
    withData Proxied (FieldNames names) obj = Ok obj'
    /\ read obj' name = VStr ""
    /\ member (initial obj') name = VStr ""
    /\ isDirty obj' = VBool false.
Proof.
  intros Hinit Hdirty Hfree Hname.
  set (data := fold_left (fun carry element =>
                            set_prop carry element (VStr "")) names []).
  assert (Hkeys : forall k, In k (keys data) <-> In k names).
  { intros k. unfold data. rewrite field_names_keys. simpl. tauto. }
  assert (Hget : get_prop data name = VStr "").
  { unfold data. rewrite field_names_get.
    now destruct (in_dec string_dec name names). }
  assert (Hfree' : Forall (fun k => ~ In k reservedFieldNames) (keys data)).
  { rewrite Forall_forall in *. intros k Hk. apply Hfree. now apply Hkeys. }
  destruct (@withData_result data obj Hinit Hdirty Hfree')
    as (obj' & Hrun & Hi & Hd & _ & Hin & _).
  exists obj'. split; [exact Hrun|]. repeat split.
  - rewrite Hin by now apply Hkeys. exact Hget.
  - rewrite Hi. simpl. rewrite merge_set_prop_get by now apply Hkeys.
    exact Hget.
  - exact Hd.
Qed.

Lemma withData_fields_stops (this : receiver) (data : object)
      (before after : list string) (field : string) :
  Forall (fun k => ~ In k reservedFieldNames) before ->
  In field reservedFieldNames ->
  forall obj,
    withData_fields this data (before ++ field :: after) obj
    = Throw (ReservedFieldName field)
            (fold_left (fun a key => assign this a key (get_prop data key))
                       before obj).
Proof.
  intros Hbefore Hfield.
  induction Hbefore as [|k rest Hk _ IH]; intros obj; simpl.
  - unfold guardAgainstReservedFieldName.
    now rewrite (indexOf_present _ _ Hfield).
  - unfold guardAgainstReservedFieldName.
    apply indexOf_absent in Hk. rewrite Hk. simpl. apply IH.
Qed.

(** X8.  [withData] throws at the first field of the data that bears a
    reserved name.  By then it has replaced [initial] by the snapshot of
    the whole data, the rejected field included, and has written the
    fields that come before it. *)
Theorem withData_rejects_reserved_field
        (data : object) (before after : list string) (field k : string)
        (obj : Form) :
  In "initial" reservedFieldNames ->
  keys data = (before ++ field :: after)%list ->
  Forall (fun k => ~ In k reservedFieldNames) before ->
  In field reservedFieldNames ->
  In k before -> k <> "isDirty" ->
  exists obj',
    withData Proxied (Fields data) obj = Throw (ReservedFieldName field) obj'
    /\ initial obj' = VObj (merge set_prop [] data)
    /\ member (initial obj') field = get_prop data field
    /\ read obj' k = get_prop data k.
Proof.
  intros Hinit Hkeys Hbefore Hfield Hk Hkd.
  unfold withData. rewrite Hkeys.
  rewrite (@withData_fields_stops Proxied data before after field Hbefore Hfield).
  simpl. eexists. split; [reflexivity|].
  assert (Hi : initial
                 (fold_left (fun a key => proxy_set a key (get_prop data key))
                    before
                    (proxy_set
                       (proxy_set (setInitialValues Proxied obj data)
                                  "processing" (VBool false))
                       "successful" (VBool false)))
               = VObj (merge set_prop [] data)).
  { unfold initial. rewrite merge_proxy_read by discriminate.
    destruct (in_dec string_dec "initial" before) as [Hin|_].
    - rewrite Forall_forall in Hbefore. exfalso.
      now apply (Hbefore _ Hin).
    - rewrite !proxy_set_other by discriminate.
      now apply setInitialValues_initial. }
  split; [exact Hi|]. split.
  - rewrite Hi. simpl. apply merge_set_prop_get. rewrite Hkeys.
    apply in_or_app. right. now left.
  - rewrite merge_proxy_read by exact Hkd.
    now destruct (in_dec string_dec k before).
Qed.

Lemma constructor_default :
  constructor (Fields []) (mkOptionsArg None None None)
  = Ok (mkForm [("processing", VBool false); ("successful", VBool false);
                ("recentlySuccessful", VBool false);
                ("isDirty", VBool false); ("initial", VObj [])]
               (mkOptions "default" true false)).
Proof. reflexivity. Qed.

(** X9.  [create(data)] on data free of reserved names returns a form
    whose fields and [initial] hold the data's values, whose four flags are
    false and whose options are the defaults. *)
Theorem create_builds_clean_form (data : object) (field : string) :
  In "initial" reservedFieldNames ->
  In "isDirty" reservedFieldNames ->
  In "processing" reservedFieldNames ->
  In "successful" reservedFieldNames ->
  In "recentlySuccessful" reservedFieldNames ->
  Forall (fun k => ~ In k reservedFieldNames) (keys data) ->
  In field (keys data) ->
  exists this,
    create (Fields data) = Ok this
    /\ read this field = get_prop data field
    /\ member (initial this) field = get_prop data field
    /\ isDirty this = VBool false
    /\ processing this = VBool false
    /\ successful this = VBool false
    /\ recentlySuccessful this = VBool false
    /\ __options this = mkOptions "default" true false.
Proof.
  intros Hinit Hdirty Hp Hs Hr Hfree Hfield.
  unfold create. rewrite constructor_default. cbn [and_then].
  match goal with
  | |- exists this, withData Proxied (Fields data) ?blank = _ /\ _ =>
      destruct (@withData_result data blank Hinit Hdirty Hfree)
        as (this & Hrun & Hi & Hd & Ho & Hin & Hout & Hproc & Hsucc)
  end.
  exists this. split; [exact Hrun|].
  rewrite Forall_forall in Hfree.
  repeat split; auto.
  - rewrite Hi. simpl. now apply merge_set_prop_get.
  - unfold recentlySuccessful. rewrite Hout; try discriminate.
    + reflexivity.
    + intros Hk. now apply (Hfree _ Hk).
Qed.

(** ** The factories *)

Lemma withOptions_props (this : receiver) (options : options_arg)
      (obj : Form) :
  this = Target \/ In "__options" reservedFieldNames ->
  props (withOptions this options obj) = props obj.
Proof.
  intros Hcase. unfold withOptions.
  assert (H : props (assign_options this obj (mkOptions "default" true false))
              = props obj).
  { unfold assign_options. destruct Hcase as [-> | Hres]; [reflexivity|].
    destruct this; [reflexivity|].
    now rewrite (indexOf_present _ _ Hres). }
  revert H.
  generalize (assign_options this obj (mkOptions "default" true false)).
  intros f H.
  destruct options as [[b|] [r|] [i|]]; simpl; exact H.
Qed.

Lemma assign_collaborator_reserved (slot : string) (obj : Form) :
  In slot reservedFieldNames -> assign_collaborator Proxied slot obj = obj.
Proof.
  intros Hres. unfold assign_collaborator.
  now rewrite (indexOf_present _ _ Hres).
Qed.

Lemma create_empty :
  In "initial" reservedFieldNames ->
  In "isDirty" reservedFieldNames ->
  exists this, create (Fields []) = Ok this.
Proof.
  intros Hinit Hdirty. unfold create. rewrite constructor_default.
  cbn [and_then].
  match goal with
  | |- exists this, withData Proxied (Fields []) ?blank = _ =>
      destruct (@withData_result [] blank Hinit Hdirty (Forall_nil _))
        as (this & Hrun & _)
  end.
  now exists this.
Qed.

(** X10.  The factory [$inertia.form(data, options)], on data free of
    reserved names, returns a form whose fields and [initial] hold the
    data's values, whose [isDirty] is false, and whose options are the
    defaults with the keys of [options] put over them; a missing [options]
    stands for the empty object. *)
Theorem inertia_form_builds_clean_form
        (data : object) (options : option options_arg) (field : string) :
  In "initial" reservedFieldNames ->
  In "isDirty" reservedFieldNames ->
  In "__options" reservedFieldNames ->
  In "__inertia" reservedFieldNames ->
  In "__page" reservedFieldNames ->
  Forall (fun k => ~ In k reservedFieldNames) (keys data) ->
  In field (keys data) ->
  let given := match options with
               | Some o => o
               | None => mkOptionsArg None None None
               end in
  exists this,
    inertia_form (Some (Fields data)) options = Ok this
    /\ read this field = get_prop data field
    /\ member (initial this) field = get_prop data field
    /\ isDirty this = VBool false
    /\ __options this
       = mkOptions
           (match arg_bag given with Some b => b | None => "default" end)
           (match arg_resetOnSuccess given with
            | Some b => b | None => true end)
           (match arg_setInitialOnSuccess given with
            | Some b => b | None => false end).
Proof.
  intros Hinit Hdirty Hopt Hine Hpage Hfree Hfield given.
  unfold inertia_form, form_chain.
  destruct (create_empty Hinit Hdirty) as (empty & ->).
  cbn [and_then].
  destruct (@withData_result data empty Hinit Hdirty Hfree)
    as (loaded & -> & Hi & Hd & _ & Hin & _).
  cbn [and_then]. fold given.
  unfold withPage, withInertia.
  rewrite !assign_collaborator_reserved by assumption.
  eexists. split; [reflexivity|].
  unfold read, initial, isDirty, read.
  rewrite withOptions_props by now right.
  repeat split.
  - now apply Hin.
  - unfold initial, read in Hi. rewrite Hi. simpl.
    now apply merge_set_prop_get.
  - exact Hd.
  - apply withOptions_result.
Qed.

(** X11.  [useForm(data)], called without options, throws a [TypeError]:
    [withOptions] reads [options.hasOwnProperty] of [undefined], after the
    data has been loaded and the default options written. *)
Theorem useForm_without_options_throws (data : object) (field : string) :
  In "initial" reservedFieldNames ->
  In "isDirty" reservedFieldNames ->
  In "__options" reservedFieldNames ->
  Forall (fun k => ~ In k reservedFieldNames) (keys data) ->
  In field (keys data) ->
  exists this,
    useForm (Fields data) None = Throw TypeError this
    /\ read this field = get_prop data field
    /\ __options this = mkOptions "default" true false.
Proof.
  intros Hinit Hdirty Hopt Hfree Hfield.
  unfold useForm, form_chain.
  destruct (create_empty Hinit Hdirty) as (empty & ->).
  cbn [and_then].
  destruct (@withData_result data empty Hinit Hdirty Hfree)
    as (loaded & -> & _ & _ & _ & Hin & _).
  cbn [and_then].
  eexists. split; [reflexivity|].
  unfold assign_options. rewrite (indexOf_present _ _ Hopt).
  split; [now apply Hin | reflexivity].
Qed.

(** ** [submit] and the call on the navigation client *)

(** X12.  [submit] with one of the five request types, [grecaptcha] being
    there, returns with [processing] true and [successful] false, one more
    submission waiting for its token, no request made yet, and every other
    property of the form as it was. *)
Theorem submit_starts_processing
        (requestType url : string) (options : option submit_options)
        (w : World) (k : string) :
  In "processing" reservedFieldNames ->
  In "successful" reservedFieldNames ->
  In requestType requestTypes ->
  grecaptcha w = true ->
  k <> "processing" -> k <> "successful" ->
  exists w',
    submit requestType url options w = Ok w'
    /\ processing (form w') = VBool true
    /\ successful (form w') = VBool false
    /\ awaiting_token w'
       = (awaiting_token w ++ [mkPending requestType url options])%list
    /\ requests w' = requests w
    /\ timers w' = timers w
    /\ read (form w') k = read (form w) k.
Proof.
  intros Hp Hs Htype Hcaptcha Hkp Hks.
  unfold submit, __validateRequestType.
  rewrite (indexOf_present _ _ Htype). simpl and_then.
  unfold on_form, with_form. simpl. rewrite Hcaptcha.
  eexists. split; [reflexivity|]. simpl.
  rewrite !proxy_set_reserved by assumption.
  unfold processing, successful.
  repeat split.
  - rewrite read_write_other by discriminate. apply read_write_same.
  - apply read_write_same.
  - rewrite !read_write_other by congruence. reflexivity.
Qed.

(** X13.  [submit] with a valid request type but no [grecaptcha] on the
    window throws a [TypeError] after it has set [processing]: the flag
    is left true, nothing waits for a token and no request is made. *)
Theorem submit_without_grecaptcha
        (requestType url : string) (options : option submit_options)
        (w : World) :
  In requestType requestTypes ->
  grecaptcha w = false ->
  exists w',
    submit requestType url options w = Throw TypeError w'
    /\ processing (form w') = VBool true
    /\ successful (form w') = VBool false
    /\ awaiting_token w' = awaiting_token w
    /\ requests w' = requests w.
Proof.
  intros Htype Hcaptcha.
  unfold submit, __validateRequestType.
  rewrite (indexOf_present _ _ Htype). simpl and_then.
  unfold on_form, with_form. simpl. rewrite Hcaptcha.
  eexists. split; [reflexivity|]. simpl.
  unfold processing, successful.
  repeat split.
  - rewrite proxy_set_other by discriminate.
    apply proxy_set_same. discriminate.
  - apply proxy_set_same. discriminate.
Qed.

(** X14.  The call on the navigation client, made once the token is
    there, adds one request with the method, url and options of the
    submission and leaves the form alone.  [delete] carries no payload.
    Every other method carries [data()] with the token under [token]
    (over a field of that name, if the form has one), as form data when
    the form has files and as the plain mapping otherwise. *)
Theorem submit_with_token_request
        (p : pending) (token : string) (w : World) (field : string) :
  let w' := submit_with_token p token w in
  form w' = form w
  /\ timers w' = timers w
  /\ exists r,
      requests w' = (requests w ++ [r])%list
      /\ req_method r = pend_method p
      /\ req_url r = pend_url p
      /\ req_options r = pend_options p
      /\ (pend_method p = "delete" -> req_body r = NoPayload)
      /\ (pend_method p <> "delete" ->
          exists d,
            req_body r = (if hasFiles (form w) then FormData d
                          else PlainData d)
            /\ get_prop d "token" = VStr token
            /\ (In field (keys (initial_object (form w))) ->
                field <> "token" ->
                get_prop d field = read (form w) field)
            /\ (~ In "_error_bag" (keys (initial_object (form w))) ->
                get_prop d "_error_bag"
                = VStr (bag (__options (form w))))).
Proof.
  intros w'. unfold w', submit_with_token.
  destruct (String.eqb_spec (pend_method p) "delete") as [Hdel|Hother].
  - split; [reflexivity|]. split; [reflexivity|].
    eexists. split; [reflexivity|]. cbn.
    do 3 (split; [reflexivity|]). split.
    + reflexivity.
    + intros Hne. contradiction.
  - split; [reflexivity|]. split; [reflexivity|].
    eexists. split; [reflexivity|]. cbn [req_method req_url req_options req_body].
    do 3 (split; [reflexivity|]). split.
    + intros Hdel. contradiction.
    + intros _.
      exists (set_prop (data (form w)) "token" (VStr token)).
      split; [reflexivity|]. split; [apply get_set_same|]. split.
      * intros Hin Hne. rewrite get_set_other by congruence.
        unfold data. rewrite data_fold_get.
        now destruct (in_dec string_dec field (keys (initial_object (form w)))).
      * intros Hout. rewrite get_set_other by discriminate.
        unfold data. rewrite data_fold_get.
        now destruct (in_dec string_dec "_error_bag"
                             (keys (initial_object (form w)))).
Qed.

(** X15.  [post], [put] and [patch] called without options register the
    submission with the empty options object, and the arrow that ends its
    round trip returns.  [delete] called without options registers it with
    [undefined], and the arrow throws a [TypeError] on [options.onSuccess],
    after the bookkeeping is done. *)
Theorem missing_options_per_method (url : string) (w w2 : World) (pg : Page) :
  grecaptcha w = true ->
  let empty := Some (mkSubmitOptions None) in
  awaiting_token (state_of (post url None w))
  = (awaiting_token w ++ [mkPending "post" url empty])%list
  /\ awaiting_token (state_of (put url None w))
     = (awaiting_token w ++ [mkPending "put" url empty])%list
  /\ awaiting_token (state_of (patch url None w))
     = (awaiting_token w ++ [mkPending "patch" url empty])%list
  /\ awaiting_token (state_of (delete url None w))
     = (awaiting_token w ++ [mkPending "delete" url None])%list
  /\ submit_onSuccess empty pg w2 = Ok (response_bookkeeping w2)
  /\ submit_onSuccess None pg w2 = Throw TypeError (response_bookkeeping w2).
Proof.
  intros Hcaptcha empty.
  unfold post, put, patch, delete, submit, __validateRequestType.
  simpl. rewrite Hcaptcha. simpl. repeat split.
Qed.

(** ** A successful round trip without [resetOnSuccess] *)

Lemma lookup_without_error_bag (d : object) (k : string) :
  k <> "_error_bag" ->
  get_prop (without_error_bag d) k = get_prop d k.
Proof.
  intros Hk. unfold get_prop, without_error_bag.
  induction d as [|[k0 v0] rest IH]; simpl; [reflexivity|].
  destruct (String.eqb_spec k0 "_error_bag") as [->|Hne]; simpl.
  - destruct (String.eqb_spec k "_error_bag"); [contradiction | exact IH].
  - destruct (String.eqb_spec k k0); [reflexivity | exact IH].
Qed.

Lemma keys_without_error_bag (d : object) (k : string) :
  In k (keys (without_error_bag d))
  <-> In k (keys d) /\ k <> "_error_bag".
Proof.
  clear reservedFieldNames isFile same_object user_callback.
  unfold keys, without_error_bag.
  induction d as [|[k0 v0] rest IH]; simpl; [tauto|].
  destruct (String.eqb_spec k0 "_error_bag") as [->|Hne]; simpl.
  - rewrite IH. intuition congruence.
  - rewrite IH. intuition congruence.
Qed.

(** The form a successful round trip leaves when only
    [setInitialOnSuccess] is on. *)
Lemma snapshot_form (w : World) :
  In "processing" reservedFieldNames ->
  In "successful" reservedFieldNames ->
  In "recentlySuccessful" reservedFieldNames ->
  In "isDirty" reservedFieldNames ->
  In "initial" reservedFieldNames ->
  Forall (fun k => ~ In k reservedFieldNames)
         (keys (initial_object (form w))) ->
  hasErrors w = false ->
  resetOnSuccess (__options (form w)) = false ->
  setInitialOnSuccess (__options (form w)) = true ->
  let this := form (response_bookkeeping w) in
  isDirty this = VBool false
  /\ (forall k, k <> "isDirty" -> k <> "initial" -> k <> "processing" ->
                k <> "successful" -> k <> "recentlySuccessful" ->
                read this k = read (form w) k)
  /\ (forall k, In k (keys (initial_object this))
                <-> In k (keys (initial_object (form w)))
                    /\ k <> "_error_bag")
  /\ (forall k, In k (keys (initial_object this)) ->
                get_prop (initial_object this) k = read (form w) k).
Proof.
  intros Hp Hs Hr Hd Hi Hwf Hno Hreset Hsnap this.
  destruct (response_bookkeeping_success w Hno) as [Hform _].
  fold this in Hform. rewrite Hreset, Hsnap in Hform.
  rewrite !proxy_set_reserved in Hform by assumption.
  set (flagged :=
         write (write (write (form w) "processing" (VBool false))
                      "successful" (VBool true))
               "recentlySuccessful" (VBool true)) in *.
  assert (Hinit : initial_object flagged = initial_object (form w)).
  { unfold flagged. now rewrite !initial_object_write by discriminate. }
  assert (Hslot : initial_object this
                  = merge set_prop [] (without_error_bag (data flagged))).
  { rewrite Hform. unfold initial_object, initial.
    rewrite read_write_other by discriminate.
    pose proof (setInitialValues_initial flagged
                  (without_error_bag (data flagged)) Hi) as Hset.
    unfold initial in Hset. now rewrite Hset. }
  assert (Hkeys : forall k, In k (keys (initial_object this))
                            <-> In k (keys (initial_object (form w)))
                                /\ k <> "_error_bag").
  { intros k. rewrite Hslot. unfold merge.
    rewrite keys_merge_set_prop. simpl.
    rewrite keys_without_error_bag.
    unfold data. rewrite data_fold_keys, Hinit. simpl.
    intuition congruence. }
  rewrite Forall_forall in Hwf.
  split; [|split; [|split; [exact Hkeys|]]].
  - unfold isDirty. rewrite Hform. apply read_write_same.
  - intros k Hkd Hki Hkp Hks Hkr. rewrite Hform.
    rewrite read_write_other by congruence.
    rewrite setInitialValues_other by assumption.
    unfold flagged. now rewrite !read_write_other by congruence.
  - intros k Hk. pose proof Hk as Hk'. apply Hkeys in Hk' as [Hin Hne].
    rewrite Hslot.
    rewrite merge_set_prop_get.
    + rewrite lookup_without_error_bag by exact Hne.
      unfold data. rewrite data_fold_get, Hinit.
      destruct (in_dec string_dec k (keys (initial_object (form w))));
        [|contradiction].
      pose proof (Hwf k Hin) as Hfree.
      unfold flagged. rewrite !read_write_other; auto;
        intros <-; contradiction.
    + rewrite keys_without_error_bag. split; [|exact Hne].
      unfold data. rewrite data_fold_keys, Hinit. now right.
Qed.

(** X16.  With [resetOnSuccess] off and [setInitialOnSuccess] on, a
    successful round trip leaves the fields as they are, takes their
    current values as the new [initial] and leaves [isDirty] false.  The
    new [initial] has the fields of the old one, except a field called
    [_error_bag], which drops out. *)
Theorem success_snapshots_initial (w : World) (field : string) :
  In "processing" reservedFieldNames ->
  In "successful" reservedFieldNames ->
  In "recentlySuccessful" reservedFieldNames ->
  In "isDirty" reservedFieldNames ->
  In "initial" reservedFieldNames ->
  Forall (fun k => ~ In k reservedFieldNames)
         (keys (initial_object (form w))) ->
  lookup (errorBags (page w)) (bag (__options (form w))) = None
  \/ lookup (errorBags (page w)) (bag (__options (form w))) = Some [] ->
  resetOnSuccess (__options (form w)) = false ->
  setInitialOnSuccess (__options (form w)) = true ->
  In field (keys (initial_object (form w))) ->
  field <> "_error_bag" ->
  let this := form (response_bookkeeping w) in
  get_prop (initial_object this) field = read (form w) field
  /\ read this field = read (form w) field
  /\ isDirty this = VBool false
  /\ In field (keys (initial_object this))
  /\ ~ In "_error_bag" (keys (initial_object this)).
Proof.
  intros Hp Hs Hr Hd Hi Hwf Hbag Hreset Hsnap Hfield Hne this.
  destruct (snapshot_form w Hp Hs Hr Hd Hi Hwf (hasErrors_false w Hbag)
                          Hreset Hsnap)
    as (Hdirty & Hsame & Hkeys & Hvals).
  fold this in Hdirty, Hsame, Hkeys, Hvals.
  rewrite Forall_forall in Hwf. pose proof (Hwf _ Hfield) as Hfree.
  assert (Hin : In field (keys (initial_object this)))
    by (apply Hkeys; now split).
  repeat split; auto.
  - apply Hsame; intros ->; contradiction.
  - intros Hbad. apply Hkeys in Hbad as [_ Hbad]. now apply Hbad.
Qed.

Lemma proxy_writes_initial_object (later : list (string * value)) :
  Forall (fun write => fst write <> "initial" /\ fst write <> "isDirty")
         later ->
  forall obj, initial_object (proxy_writes obj later) = initial_object obj.
Proof.
  induction 1 as [|[prop v] rest [Hpi Hpd] _ IH]; intros obj; simpl;
    [reflexivity|].
  rewrite IH. unfold initial_object, initial.
  simpl in Hpi, Hpd. now rewrite proxy_set_other by congruence.
Qed.

(** X17.  After such a round trip [reset()], whatever is written to the
    fields in between, goes back to the values the fields had when the
    round trip ended, not to those the form was made with. *)
Theorem reset_after_snapshot (w : World) (field : string) :
  In "processing" reservedFieldNames ->
  In "successful" reservedFieldNames ->
  In "recentlySuccessful" reservedFieldNames ->
  In "isDirty" reservedFieldNames ->
  In "initial" reservedFieldNames ->
  Forall (fun k => ~ In k reservedFieldNames)
         (keys (initial_object (form w))) ->
  lookup (errorBags (page w)) (bag (__options (form w))) = None
  \/ lookup (errorBags (page w)) (bag (__options (form w))) = Some [] ->
  resetOnSuccess (__options (form w)) = false ->
  setInitialOnSuccess (__options (form w)) = true ->
  In field (keys (initial_object (form w))) ->
  field <> "_error_bag" ->
  forall later : list (string * value),
    Forall (fun write => fst write <> "initial"
                         /\ fst write <> "isDirty") later ->
    read (reset (proxy_writes (form (response_bookkeeping w)) later)) field
    = read (form w) field.
Proof.
  intros Hp Hs Hr Hd Hi Hwf Hbag Hreset Hsnap Hfield Hne later Hlater.
  destruct (snapshot_form w Hp Hs Hr Hd Hi Hwf (hasErrors_false w Hbag)
                          Hreset Hsnap)
    as (_ & _ & Hkeys & Hvals).
  set (this := form (response_bookkeeping w)) in *.
  assert (Hkeep : initial_object (proxy_writes this later)
                  = initial_object this)
    by now apply proxy_writes_initial_object.
  rewrite Forall_forall in Hwf. pose proof (Hwf _ Hfield) as Hfree.
  assert (Hin : In field (keys (initial_object this)))
    by (apply Hkeys; now split).
  rewrite reset_read_field; auto.
  - rewrite Hkeep. now apply Hvals.
  - now rewrite Hkeep.
  - intros ->. contradiction.
Qed.

(** X18.  With both [resetOnSuccess] and [setInitialOnSuccess] off, a
    successful round trip sets the three flags, hands [setTimeout] its
    step and changes nothing else: fields, [initial] and [isDirty] stay. *)
Theorem success_without_reset_or_snapshot (w : World) (k : string) :
  In "processing" reservedFieldNames ->
  In "successful" reservedFieldNames ->
  In "recentlySuccessful" reservedFieldNames ->
  lookup (errorBags (page w)) (bag (__options (form w))) = None
  \/ lookup (errorBags (page w)) (bag (__options (form w))) = Some [] ->
  resetOnSuccess (__options (form w)) = false ->
  setInitialOnSuccess (__options (form w)) = false ->
  k <> "processing" -> k <> "successful" -> k <> "recentlySuccessful" ->
  let w' := response_bookkeeping w in
  successful (form w') = VBool true
  /\ recentlySuccessful (form w') = VBool true
  /\ processing (form w') = VBool false
  /\ read (form w') k = read (form w) k
  /\ isDirty (form w') = isDirty (form w)
  /\ initial (form w') = initial (form w)
  /\ timers w' = (timers w ++ [(2000, ClearRecentlySuccessful)])%list.
Proof.
  intros Hp Hs Hr Hbag Hreset Hsnap Hkp Hks Hkr w'.
  destruct (response_bookkeeping_success w (hasErrors_false w Hbag))
    as [Hform Htimers].
  fold w' in Hform, Htimers. rewrite Hreset, Hsnap in Hform.
  rewrite !proxy_set_reserved in Hform by assumption.
  unfold successful, recentlySuccessful, processing, isDirty, initial.
  rewrite Hform.
  repeat split;
    try (rewrite ?read_write_other by (discriminate || congruence);
         (apply read_write_same || reflexivity)).
  exact Htimers.
Qed.

(** X19.  The bookkeeping at the end of a round trip makes no request,
    registers nothing with [grecaptcha] and leaves the page alone; when the
    configured bag has errors it hands nothing to [setTimeout] either. *)
Theorem response_bookkeeping_frame (w : World) :
  let w' := response_bookkeeping w in
  page w' = page w
  /\ grecaptcha w' = grecaptcha w
  /\ awaiting_token w' = awaiting_token w
  /\ requests w' = requests w
  /\ (hasErrors w = true -> timers w' = timers w).
Proof.
  intros w'. unfold w', response_bookkeeping.
  rewrite hasErrors_on_form_proxy_set.
  destruct (hasErrors w); simpl.
  - unfold onFail, on_form, with_form. simpl. repeat split.
  - unfold onSuccess, on_form, with_form, setTimeout. simpl.
    rewrite !proxy_set_options.
    destruct (resetOnSuccess _); [|destruct (setInitialOnSuccess _)];
      simpl; repeat split; discriminate.
Qed.

(** X20.  The step the timer runs changes [recentlySuccessful] and
    nothing else: not [processing] or [successful] of a submission started
    in the meantime, not a field, not [isDirty]. *)
Theorem fire_changes_recentlySuccessful_only
        (d : deferred) (w : World) (k : string) :
  In "recentlySuccessful" reservedFieldNames ->
  k <> "recentlySuccessful" ->
  read (form (fire d w)) k = read (form w) k
  /\ __options (form (fire d w)) = __options (form w)
  /\ awaiting_token (fire d w) = awaiting_token w
  /\ requests (fire d w) = requests w
  /\ timers (fire d w) = timers w.
Proof.
  intros Hr Hk. destruct d. unfold fire, on_form, with_form. simpl.
  rewrite proxy_set_reserved by exact Hr.
  repeat split. apply read_write_other. congruence.
Qed.

(** ** More on the error accessors *)

Lemma lookup_in_values {A : Type} (o : dict A) (k : string) (v : A) :
  lookup o k = Some v -> In v (values o).
Proof.
  unfold values. induction o as [|[k0 v0] rest IH]; simpl; [discriminate|].
  destruct (String.eqb k k0).
  - intros [= ->]. now left.
  - intros H. right. now apply IH.
Qed.

Lemma lookup_some_nonempty {A : Type} (o : dict A) (k : string) (v : A) :
  lookup o k = Some v -> o <> [].
Proof. intros H ->. discriminate. Qed.

(** X21.  [errors()] is the messages of the configured bag, field after
    field in the bag's order and each field's messages in theirs; it is
    empty when the page has no such bag. *)
Theorem errors_without_field_flattens_bag (w : World) :
  errors None w
  = match lookup (errorBags (page w)) (bag (__options (form w))) with
    | Some errorBag => concat (values errorBag)
    | None => []
    end.
Proof. apply errors_of_all. Qed.

(** X22.  [errors(field)] is the field's whole message sequence when the
    configured bag has messages for the field and the first of them is not
    the empty string. *)
Theorem errors_of_field_returns_messages
        (w : World) (field : string) (errorBag : dict (list string))
        (first : string) (rest : list string) :
  lookup (errorBags (page w)) (bag (__options (form w))) = Some errorBag ->
  lookup errorBag field = Some (first :: rest) ->
  first <> "" ->
  errors (Some field) w = first :: rest.
Proof. apply errors_of_field. Qed.

(** X23.  [error(field)] returns a message exactly when the configured
    bag has a non-empty message sequence for the field, and then it is the
    first message of that sequence. *)
Theorem error_is_first_message (w : World) (field message : string) :
  error field w = Some message
  <-> exists errorBag rest,
      lookup (errorBags (page w)) (bag (__options (form w))) = Some errorBag
      /\ lookup errorBag field = Some (message :: rest).
Proof.
  unfold error, hasErrors, inertiaPage. split.
  - destruct (lookup (errorBags (page w)) _) as [errorBag|];
      [|simpl; discriminate].
    destruct (0 <? _); simpl; [|discriminate].
    destruct (lookup errorBag field) as [[|first rest]|] eqn:Hfield;
      try discriminate.
    intros [= ->]. now exists errorBag, rest.
  - intros (errorBag & rest & -> & Hfield).
    destruct errorBag as [|entry more]; [discriminate|].
    change (0 <? Z.of_nat (length (keys (entry :: more)))) with true.
    simpl negb. cbv iota. now rewrite Hfield.
Qed.

(** X24.  The accessors agree: when [errors(field)] is not empty its first
    message is what [error(field)] returns, and every message of it is
    among those [errors()] returns. *)
Theorem errors_of_field_within_all
        (w : World) (field first message : string) (rest : list string) :
  errors (Some field) w = first :: rest ->
  In message (first :: rest) ->
  error field w = Some first
  /\ hasErrors w = true
  /\ In message (errors None w).
Proof.
  intros Herrs Hin. rewrite errors_of_all.
  unfold errors in Herrs.
  destruct (error field w) as [m|] eqn:Herr; simpl in Herrs;
    [|discriminate].
  destruct (String.eqb m ""); simpl in Herrs; [discriminate|].
  unfold error in Herr.
  destruct (hasErrors w) eqn:Hyes; simpl in Herr; [|discriminate].
  unfold inertiaPage in *.
  destruct (lookup (errorBags (page w)) _) as [errorBag|];
    [|discriminate].
  destruct (lookup errorBag field) as [[|m0 rest0]|] eqn:Hfield;
    try discriminate.
  injection Herr as ->. injection Herrs as -> ->.
  split; [reflexivity|]. split; [reflexivity|].
  apply in_concat. exists (first :: rest). split; [|exact Hin].
  now apply (lookup_in_values errorBag field).
Qed.

(** X25.  When the configured bag is absent or empty, [hasErrors()] is
    false, [error(field)] returns nothing and both forms of [errors] return
    the empty sequence, whatever other bags the page has. *)
Theorem no_errors_without_bag (w : World) (field : string) :
  lookup (errorBags (page w)) (bag (__options (form w))) = None
  \/ lookup (errorBags (page w)) (bag (__options (form w))) = Some [] ->
  hasErrors w = false
  /\ error field w = None
  /\ errors (Some field) w = []
  /\ errors None w = [].
Proof.
  intros Hbag. pose proof (hasErrors_false w Hbag) as Hno.
  unfold errors, error. rewrite Hno. simpl. auto.
Qed.

(** X26.  After [reset()], [data()] carries for every field of [initial]
    the value [initial] stores for it. *)
Theorem data_after_reset (this : Form) (field : string) :
  In "isDirty" reservedFieldNames ->
  In "initial" reservedFieldNames ->
  Forall (fun k => ~ In k reservedFieldNames) (keys (initial_object this)) ->
  In field (keys (initial_object this)) ->
  get_prop (data (reset this)) field = get_prop (initial_object this) field
  /\ initial (reset this) = initial this.
Proof.
  intros Hd Hi Hwf Hfield. rewrite Forall_forall in Hwf.
  assert (Hinit : initial (reset this) = initial this).
  { unfold initial. apply reset_read_other; auto; try discriminate.
    intros Hin. now apply (Hwf _ Hin). }
  split; [|exact Hinit].
  assert (Hobj : initial_object (reset this) = initial_object this)
    by (unfold initial_object; now rewrite Hinit).
  unfold data. rewrite data_fold_get, Hobj.
  destruct (in_dec string_dec field (keys (initial_object this)));
    [|contradiction].
  apply reset_read_field; auto.
  intros ->. now apply (Hwf _ Hfield).
Qed.

End InertiaForm.

(** ** The theorems on the sample data *)

Ltac reserved_name := simpl; tauto.
Ltac free_name := simpl; intuition discriminate.

Example create_login_form :
  create sample_reserved distinct_objects
         (Fields [("email", VStr ""); ("remember", VBool false)])
  = Ok login_form.
Proof. reflexivity. Qed.

Example create_from_field_names :
  create sample_reserved distinct_objects (FieldNames ["email"; "name"])
  = Ok (mkForm
          [("processing", VBool false); ("successful", VBool false);
           ("recentlySuccessful", VBool false); ("isDirty", VBool false);
           ("initial", VObj [("email", VStr ""); ("name", VStr "")]);
           ("email", VStr ""); ("name", VStr "")]
          default_options).
Proof. reflexivity. Qed.

Example create_rejects_reserved_name :
  exists obj,
    create sample_reserved distinct_objects
           (Fields [("email", VStr ""); ("isDirty", VBool true)])
    = Throw (ReservedFieldName "isDirty") obj.
Proof. eexists. reflexivity. Qed.

Lemma write_sets_isDirty_on_login_form :
  isDirty (proxy_set sample_reserved distinct_objects login_form
                     "email" (VStr "ann@example.org")) = VBool true
  /\ (forall n,
         isDirty (proxy_writes sample_reserved distinct_objects
                    (proxy_set sample_reserved distinct_objects login_form
                               "email" (VStr "ann@example.org"))
                    (firstn n [("remember", VBool true); ("email", VStr "")]))
         = VBool true)
  /\ isDirty (proxy_set sample_reserved distinct_objects submitted_login_form
                        "remember" (VBool false)) = VBool true.
Proof.
  apply write_sets_isDirty.
  - reserved_name.
  - reserved_name.
  - intros a b H. discriminate H.
  - free_name.
  - repeat constructor; free_name.
  - simpl. discriminate.
  - free_name.
  - reflexivity.
Defined.

Example hasFiles_nested_in_sequence :
  hasFiles host_is_file upload_form = true.
Proof. reflexivity. Qed.

Example hasFiles_text_only :
  hasFiles host_is_file submitted_login_form = false.
Proof. reflexivity. Qed.

Lemma hasFiles_on_upload_form :
  (hasFiles host_is_file upload_form = true <->
   exists property,
     In property (keys (initial_object upload_form))
     /\ contains_file host_is_file (read upload_form property))
  /\ (contains_file host_is_file (VHost 7) ->
      hasFilesDeep host_is_file (VArr ([VStr "text"] ++ VHost 7 :: [VNull]))
      = true).
Proof.
  apply hasFiles_iff_some_field_contains_file.
  - reflexivity.
  - reflexivity.
Defined.

Lemma successful_response_on_login_form :
  let w := world_of submitted_login_form clean_page in
  let w' := response_bookkeeping sample_reserved distinct_objects w in
  successful (form w') = VBool true
  /\ processing (form w') = VBool false
  /\ recentlySuccessful (form w') = VBool true
  /\ (resetOnSuccess (__options (form w)) = true ->
      (In "email" (keys (initial_object (form w))) ->
       read (form w') "email" = get_prop (initial_object (form w)) "email")
      /\ isDirty (form w') = VBool false)
  /\ (match Some (mkSubmitOptions None) with
      | Some o => user_onSuccess o = None
      | None => True
      end ->
      state_of (submit_onSuccess sample_reserved distinct_objects
                                 idle_callback (Some (mkSubmitOptions None))
                                 clean_page w) = w').
Proof.
  intros w.
  apply (@successful_response_resets_form
           sample_reserved distinct_objects idle_callback w "email"
           (Some (mkSubmitOptions None)) clean_page).
  - reserved_name.
  - reserved_name.
  - reserved_name.
  - reserved_name.
  - repeat constructor; free_name.
  - left. reflexivity.
Defined.

Example successful_response_final_form :
  form (response_bookkeeping sample_reserved distinct_objects
                             (world_of submitted_login_form empty_bag_page))
  = mkForm [("processing", VBool false); ("successful", VBool true);
            ("recentlySuccessful", VBool true); ("isDirty", VBool false);
            ("initial", VObj [("email", VStr ""); ("remember", VBool false)]);
            ("email", VStr ""); ("remember", VBool false)]
           default_options.
Proof. reflexivity. Qed.

(** C3, as stated, fails on a form that a [withData] call left behind
    when it threw: [withData({email: 'x', processing: true, successful:
    false})] on the login form throws at [processing], with [initial]
    already the whole data.  A [post] from that form whose round trip ends
    without errors, under the default options, ends with [successful] false
    and [processing] true: [reset()] writes the two flags back from
    [initial]. *)
Lemma successful_response_after_rejected_withData :
  let rejected :=
    Fields [("email", VStr "x"); ("processing", VBool true);
            ("successful", VBool false)] in
  let broken :=
    state_of (withData sample_reserved distinct_objects Proxied rejected
                       login_form) in
  let w :=
    state_of (submit sample_reserved distinct_objects "post" "/login" None
                     (world_of broken clean_page)) in
  let w' := response_bookkeeping sample_reserved distinct_objects w in
  withData sample_reserved distinct_objects Proxied rejected login_form
  = Throw (ReservedFieldName "processing") broken
  /\ submit sample_reserved distinct_objects "post" "/login" None
            (world_of broken clean_page) = Ok w
  /\ lookup (errorBags (page w)) (bag (__options (form w))) = None
  /\ resetOnSuccess (__options (form w)) = true
  /\ successful (form w') = VBool false
  /\ processing (form w') = VBool true
  /\ ~ (successful (form w') = VBool true
        /\ processing (form w') = VBool false).
Proof.
  repeat split; try reflexivity.
  intros [H _]. vm_compute in H. discriminate H.
Qed.

Lemma failed_response_on_login_form :
  let w := world_of submitted_login_form invalid_email_page in
  let w' := response_bookkeeping sample_reserved distinct_objects w in
  successful (form w') = VBool false
  /\ recentlySuccessful (form w') = VBool false
  /\ processing (form w') = VBool false
  /\ read (form w') "email" = read (form w) "email"
  /\ initial (form w') = initial (form w)
  /\ isDirty (form w') = isDirty (form w)
  /\ __options (form w') = __options (form w)
  /\ (match @None submit_options with
      | Some o => user_onSuccess o = None
      | None => True
      end ->
      state_of (submit_onSuccess sample_reserved distinct_objects
                                 idle_callback None invalid_email_page w)
      = w').
Proof.
  intros w.
  apply (@failed_response_leaves_fields
           sample_reserved distinct_objects idle_callback w
           [("email", ["Invalid"])] "email" None invalid_email_page).
  - reserved_name.
  - reserved_name.
  - reserved_name.
  - reflexivity.
  - discriminate.
  - discriminate.
  - discriminate.
  - discriminate.
Defined.

Example failed_response_accessors :
  let w := response_bookkeeping sample_reserved distinct_objects
             (world_of submitted_login_form invalid_email_page) in
  hasErrors w = true
  /\ error "email" w = Some "Invalid"
  /\ errors None w = ["Invalid"]
  /\ successful (form w) = VBool false
  /\ read (form w) "email" = VStr "ann@example.org".
Proof. repeat split; reflexivity. Qed.

Lemma success_schedules_timer_on_login_form :
  let w := world_of submitted_login_form clean_page in
  timers (response_bookkeeping sample_reserved distinct_objects w)
  = (timers w ++ [(2000, ClearRecentlySuccessful)])%list
  /\ recentlySuccessful
       (form (fire sample_reserved distinct_objects ClearRecentlySuccessful
                   (response_bookkeeping sample_reserved distinct_objects w)))
     = VBool false.
Proof.
  intros w.
  apply success_schedules_clearing_recentlySuccessful.
  left. reflexivity.
Defined.

Lemma submit_rejects_head :
  let w := world_of login_form clean_page in
  submit sample_reserved distinct_objects "head" "/login" None w
  = Throw (Error ("`" ++ "head"
                  ++ "` is not a valid request type, must be one of: "
                  ++ "`get`, `post`, `put`, `patch`, `delete`.")) w
  /\ processing (form (state_of (submit sample_reserved distinct_objects
                                        "head" "/login" None w)))
     = processing (form w)
  /\ successful (form (state_of (submit sample_reserved distinct_objects
                                        "head" "/login" None w)))
     = successful (form w)
  /\ awaiting_token (state_of (submit sample_reserved distinct_objects
                                      "head" "/login" None w))
     = awaiting_token w
  /\ requests (state_of (submit sample_reserved distinct_objects
                                "head" "/login" None w)) = requests w.
Proof.
  intros w.
  apply submit_rejects_request_type.
  unfold requestTypes. free_name.
Defined.

Example submit_post_awaits_token :
  submit sample_reserved distinct_objects "post" "/login" None
         (world_of login_form clean_page)
  = Ok (mkWorld
          (write (write login_form "processing" (VBool true))
                 "successful" (VBool false))
          clean_page true [mkPending "post" "/login" None] [] []).
Proof. reflexivity. Qed.

Lemma reset_on_submitted_login_form :
  read (reset sample_reserved distinct_objects submitted_login_form) "email"
  = get_prop (initial_object submitted_login_form) "email"
  /\ isDirty (reset sample_reserved distinct_objects submitted_login_form)
     = VBool false.
Proof.
  apply reset_restores_initial_values.
  - reserved_name.
  - simpl. tauto.
  - discriminate.
Defined.

Lemma data_of_submitted_login_form :
  (In "remember" (keys (data submitted_login_form)) <->
   "remember" = "_error_bag"
   \/ In "remember" (keys (initial_object submitted_login_form)))
  /\ (In "email" (keys (initial_object submitted_login_form)) ->
      get_prop (data submitted_login_form) "email"
      = read submitted_login_form "email")
  /\ (~ In "_error_bag" (keys (initial_object submitted_login_form)) ->
      get_prop (data submitted_login_form) "_error_bag"
      = VStr (bag (__options submitted_login_form))).
Proof.
  apply data_fields_and_marker.
Defined.

Example data_of_submitted_login_form_value :
  data submitted_login_form
  = [("_error_bag", VStr "default"); ("email", VStr "ann@example.org");
     ("remember", VBool true)].
Proof. reflexivity. Qed.

(** C7, as stated, fails on a form with a field called [_error_bag]:
    [create({_error_bag: 'x'})] returns a form whose [data()] has ['x'], not
    the configured bag name ['default'], under the marker. *)
Lemma data_marker_taken_by_field :
  create sample_reserved distinct_objects (Fields [("_error_bag", VStr "x")])
  = Ok marker_form
  /\ bag (__options marker_form) = "default"
  /\ data marker_form = [("_error_bag", VStr "x")]
  /\ get_prop (data marker_form) "_error_bag"
     <> VStr (bag (__options marker_form)).
Proof.
  repeat split; try reflexivity.
  simpl. discriminate.
Qed.

(** C8 at a bag whose first message for [email] is the empty string:
    [errors('email')] is empty although the bag has two messages for the
    field, both of which [errors()] returns. *)
Theorem errors_of_field_drops_messages_after_empty_first :
  let w := world_of login_form empty_message_page in
  lookup (errorBags (page w)) (bag (__options (form w)))
  = Some [("email", [""; "Invalid"]); ("name", ["Required"])]
  /\ errors (Some "email") w = []
  /\ errors (Some "name") w = ["Required"]
  /\ errors None w = [""; "Invalid"; "Required"].
Proof. repeat split; reflexivity. Qed.

(** ** Further properties on the sample data *)

Lemma proxy_set_stores_on_login_form :
  read (proxy_set sample_reserved distinct_objects login_form
                  "email" (VStr "ann@example.org")) "email"
  = VStr "ann@example.org"
  /\ read (proxy_set sample_reserved distinct_objects login_form
                     "email" (VStr "ann@example.org")) "remember"
     = read login_form "remember"
  /\ __options (proxy_set sample_reserved distinct_objects login_form
                          "email" (VStr "ann@example.org"))
     = __options login_form.
Proof.
  apply proxy_set_stores_and_frames; discriminate.
Defined.

Lemma write_back_on_login_form :
  read (proxy_set sample_reserved distinct_objects login_form
                  "email" (VStr "")) "email" = VStr ""
  /\ isDirty (proxy_set sample_reserved distinct_objects login_form
                        "email" (VStr ""))
     = isDirty login_form.
Proof.
  apply write_back_of_initial_primitive.
  - simpl. tauto.
  - reflexivity.
  - discriminate.
  - discriminate.
  - discriminate.
  - reflexivity.
Defined.

Lemma direct_isDirty_assignment :
  read (proxy_set sample_reserved distinct_objects submitted_login_form
                  "isDirty" (VBool false)) "isDirty" = VBool false
  /\ read (proxy_set sample_reserved distinct_objects submitted_login_form
                     "isDirty" (VBool false)) "email"
     = read submitted_login_form "email".
Proof.
  apply reserved_write_is_plain_store.
  - reserved_name.
  - discriminate.
Defined.

Lemma equal_array_write_on_tags_form :
  isDirty (proxy_set sample_reserved distinct_objects tags_form
                     "tags" (VArr [VStr "x"])) = VBool true.
Proof.
  apply object_write_sets_isDirty.
  - reserved_name.
  - free_name.
  - reflexivity.
  - reflexivity.
Defined.

Lemma withData_on_used_form :
  exists obj',
    withData sample_reserved distinct_objects Proxied
             (Fields [("name", VStr "Bo"); ("tags", VArr [VStr "x"])])
             used_form = Ok obj'
    /\ read obj' "tags"
       = get_prop [("name", VStr "Bo"); ("tags", VArr [VStr "x"])] "tags"
    /\ member (initial obj') "tags"
       = get_prop [("name", VStr "Bo"); ("tags", VArr [VStr "x"])] "tags"
    /\ isDirty obj' = VBool false
    /\ processing obj' = VBool false
    /\ successful obj' = VBool false
    /\ __options obj' = __options used_form.
Proof.
  apply withData_loads_fields.
  - reserved_name.
  - reserved_name.
  - reserved_name.
  - reserved_name.
  - repeat constructor; free_name.
  - simpl. tauto.
Defined.

Lemma withData_keeps_recentlySuccessful :
  exists obj',
    withData sample_reserved distinct_objects Proxied
             (Fields [("name", VStr "Bo")]) used_form = Ok obj'
    /\ read obj' "recentlySuccessful" = read used_form "recentlySuccessful".
Proof.
  apply withData_keeps_other_properties.
  - reserved_name.
  - reserved_name.
  - repeat constructor; free_name.
  - free_name.
  - discriminate.
  - discriminate.
  - discriminate.
  - discriminate.
Defined.

Lemma withData_field_names_on_login_form :
  exists obj',
    withData sample_reserved distinct_objects Proxied
             (FieldNames ["name"; "email"; "name"]) login_form = Ok obj'
    /\ read obj' "name" = VStr ""
    /\ member (initial obj') "name" = VStr ""
    /\ isDirty obj' = VBool false.
Proof.
  apply withData_field_names.
  - reserved_name.
  - reserved_name.
  - repeat constructor; free_name.
  - simpl. tauto.
Defined.

Lemma withData_rejects_isDirty_field :
  exists obj',
    withData sample_reserved distinct_objects Proxied
             (Fields [("name", VStr "Bo"); ("isDirty", VBool true);
                      ("email", VStr "bo@example.org")])
             login_form
    = Throw (ReservedFieldName "isDirty") obj'
    /\ initial obj'
       = VObj (merge set_prop []
                     [("name", VStr "Bo"); ("isDirty", VBool true);
                      ("email", VStr "bo@example.org")])
    /\ member (initial obj') "isDirty"
       = get_prop [("name", VStr "Bo"); ("isDirty", VBool true);
                   ("email", VStr "bo@example.org")] "isDirty"
    /\ read obj' "name"
       = get_prop [("name", VStr "Bo"); ("isDirty", VBool true);
                   ("email", VStr "bo@example.org")] "name".
Proof.
  apply (@withData_rejects_reserved_field
           sample_reserved distinct_objects
           [("name", VStr "Bo"); ("isDirty", VBool true);
            ("email", VStr "bo@example.org")]
           ["name"] ["email"] "isDirty" "name" login_form).
  - reserved_name.
  - reflexivity.
  - repeat constructor; free_name.
  - reserved_name.
  - simpl. tauto.
  - discriminate.
Defined.

Lemma create_login_form_is_clean :
  exists this,
    create sample_reserved distinct_objects
           (Fields [("email", VStr ""); ("remember", VBool false)])
    = Ok this
    /\ read this "remember"
       = get_prop [("email", VStr ""); ("remember", VBool false)] "remember"
    /\ member (initial this) "remember"
       = get_prop [("email", VStr ""); ("remember", VBool false)] "remember"
    /\ isDirty this = VBool false
    /\ processing this = VBool false
    /\ successful this = VBool false
    /\ recentlySuccessful this = VBool false
    /\ __options this = mkOptions "default" true false.
Proof.
  apply create_builds_clean_form.
  - reserved_name.
  - reserved_name.
  - reserved_name.
  - reserved_name.
  - reserved_name.
  - repeat constructor; free_name.
  - simpl. tauto.
Defined.

Lemma inertia_form_with_bag :
  let given := match Some (mkOptionsArg (Some "login") None None) with
               | Some o => o
               | None => mkOptionsArg None None None
               end in
  exists this,
    inertia_form sample_reserved distinct_objects
                 (Some (Fields [("tags", VArr [VStr "x"])]))
                 (Some (mkOptionsArg (Some "login") None None))
    = Ok this
    /\ read this "tags" = get_prop [("tags", VArr [VStr "x"])] "tags"
    /\ member (initial this) "tags"
       = get_prop [("tags", VArr [VStr "x"])] "tags"
    /\ isDirty this = VBool false
    /\ __options this
       = mkOptions
           (match arg_bag given with Some b => b | None => "default" end)
           (match arg_resetOnSuccess given with
            | Some b => b | None => true end)
           (match arg_setInitialOnSuccess given with
            | Some b => b | None => false end).
Proof.
  apply (@inertia_form_builds_clean_form
           sample_reserved distinct_objects
           [("tags", VArr [VStr "x"])]
           (Some (mkOptionsArg (Some "login") None None)) "tags").
  - reserved_name.
  - reserved_name.
  - reserved_name.
  - reserved_name.
  - reserved_name.
  - repeat constructor; free_name.
  - simpl. tauto.
Defined.

Lemma useForm_without_options_on_email :
  exists this,
    useForm sample_reserved distinct_objects (Fields [("email", VStr "")])
            None
    = Throw TypeError this
    /\ read this "email" = get_prop [("email", VStr "")] "email"
    /\ __options this = mkOptions "default" true false.
Proof.
  apply useForm_without_options_throws.
  - reserved_name.
  - reserved_name.
  - reserved_name.
  - repeat constructor; free_name.
  - simpl. tauto.
Defined.

Lemma submit_put_on_login_form :
  exists w',
    submit sample_reserved distinct_objects "put" "/profile" None
           (world_of submitted_login_form clean_page) = Ok w'
    /\ processing (form w') = VBool true
    /\ successful (form w') = VBool false
    /\ awaiting_token w'
       = (awaiting_token (world_of submitted_login_form clean_page)
          ++ [mkPending "put" "/profile" None])%list
    /\ requests w' = requests (world_of submitted_login_form clean_page)
    /\ timers w' = timers (world_of submitted_login_form clean_page)
    /\ read (form w') "isDirty"
       = read (form (world_of submitted_login_form clean_page)) "isDirty".
Proof.
  apply submit_starts_processing.
  - reserved_name.
  - reserved_name.
  - unfold requestTypes. simpl. tauto.
  - reflexivity.
  - discriminate.
  - discriminate.
Defined.

Lemma submit_without_grecaptcha_on_login_form :
  exists w',
    submit sample_reserved distinct_objects "post" "/login" None
           (mkWorld login_form clean_page false [] [] [])
    = Throw TypeError w'
    /\ processing (form w') = VBool true
    /\ successful (form w') = VBool false
    /\ awaiting_token w'
       = awaiting_token (mkWorld login_form clean_page false [] [] [])
    /\ requests w' = requests (mkWorld login_form clean_page false [] [] []).
Proof.
  apply submit_without_grecaptcha.
  - unfold requestTypes. simpl. tauto.
  - reflexivity.
Defined.

Lemma submit_with_token_on_login_form :
  let w := world_of submitted_login_form clean_page in
  let p := mkPending "post" "/login" None in
  let w' := submit_with_token host_is_file p "t0k3n" w in
  form w' = form w
  /\ timers w' = timers w
  /\ exists r,
      requests w' = (requests w ++ [r])%list
      /\ req_method r = pend_method p
      /\ req_url r = pend_url p
      /\ req_options r = pend_options p
      /\ (pend_method p = "delete" -> req_body r = NoPayload)
      /\ (pend_method p <> "delete" ->
          exists d,
            req_body r = (if hasFiles host_is_file (form w) then FormData d
                          else PlainData d)
            /\ get_prop d "token" = VStr "t0k3n"
            /\ (In "email" (keys (initial_object (form w))) ->
                "email" <> "token" ->
                get_prop d "email" = read (form w) "email")
            /\ (~ In "_error_bag" (keys (initial_object (form w))) ->
                get_prop d "_error_bag"
                = VStr (bag (__options (form w))))).
Proof.
  intros w p.
  apply (@submit_with_token_request host_is_file p "t0k3n" w "email").
Defined.

Example submit_with_token_requests :
  requests (submit_with_token host_is_file (mkPending "post" "/login" None)
                              "t0k3n"
                              (world_of submitted_login_form clean_page))
  = [mkRequest "post" "/login"
               (PlainData [("_error_bag", VStr "default");
                           ("email", VStr "ann@example.org");
                           ("remember", VBool true);
                           ("token", VStr "t0k3n")])
               None]
  /\ requests (submit_with_token host_is_file
                                 (mkPending "delete" "/login" None) "t0k3n"
                                 (world_of upload_form clean_page))
     = [mkRequest "delete" "/login" NoPayload None]
  /\ requests (submit_with_token host_is_file
                                 (mkPending "post" "/files" None) "t0k3n"
                                 (world_of upload_form clean_page))
     = [mkRequest "post" "/files"
                  (FormData [("_error_bag", VStr "default");
                             ("a", VObj [("b", VArr [VStr "text"; VHost 7])]);
                             ("token", VStr "t0k3n")])
                  None].
Proof. repeat split; reflexivity. Qed.

Lemma missing_options_on_login_form :
  let w := world_of login_form clean_page in
  let w2 := world_of submitted_login_form clean_page in
  let empty := Some (mkSubmitOptions None) in
  awaiting_token (state_of (post sample_reserved distinct_objects
                                 "/login" None w))
  = (awaiting_token w ++ [mkPending "post" "/login" empty])%list
  /\ awaiting_token (state_of (put sample_reserved distinct_objects
                                   "/login" None w))
     = (awaiting_token w ++ [mkPending "put" "/login" empty])%list
  /\ awaiting_token (state_of (patch sample_reserved distinct_objects
                                     "/login" None w))
     = (awaiting_token w ++ [mkPending "patch" "/login" empty])%list
  /\ awaiting_token (state_of (delete sample_reserved distinct_objects
                                      "/login" None w))
     = (awaiting_token w ++ [mkPending "delete" "/login" None])%list
  /\ submit_onSuccess sample_reserved distinct_objects idle_callback
                      empty clean_page w2
     = Ok (response_bookkeeping sample_reserved distinct_objects w2)
  /\ submit_onSuccess sample_reserved distinct_objects idle_callback
                      None clean_page w2
     = Throw TypeError
             (response_bookkeeping sample_reserved distinct_objects w2).
Proof.
  intros w w2.
  apply (@missing_options_per_method
           sample_reserved distinct_objects idle_callback
           "/login" w w2 clean_page).
  reflexivity.
Defined.

Lemma success_snapshots_login_form :
  let w := world_of snapshot_login_form clean_page in
  let this := form (response_bookkeeping sample_reserved distinct_objects w) in
  get_prop (initial_object this) "email" = read (form w) "email"
  /\ read this "email" = read (form w) "email"
  /\ isDirty this = VBool false
  /\ In "email" (keys (initial_object this))
  /\ ~ In "_error_bag" (keys (initial_object this)).
Proof.
  intros w.
  apply (@success_snapshots_initial
           sample_reserved distinct_objects w "email").
  - reserved_name.
  - reserved_name.
  - reserved_name.
  - reserved_name.
  - reserved_name.
  - repeat constructor; free_name.
  - left. reflexivity.
  - reflexivity.
  - reflexivity.
  - simpl. tauto.
  - discriminate.
Defined.

Example success_snapshot_final_form :
  form (response_bookkeeping sample_reserved distinct_objects
                             (world_of snapshot_login_form clean_page))
  = mkForm [("processing", VBool false); ("successful", VBool true);
            ("recentlySuccessful", VBool true); ("isDirty", VBool false);
            ("initial", VObj [("email", VStr "ann@example.org");
                              ("remember", VBool true)]);
            ("email", VStr "ann@example.org"); ("remember", VBool true)]
           (mkOptions "default" false true).
Proof. reflexivity. Qed.

Lemma reset_after_snapshot_on_login_form :
  let w := world_of snapshot_login_form clean_page in
  read (reset sample_reserved distinct_objects
              (proxy_writes sample_reserved distinct_objects
                 (form (response_bookkeeping sample_reserved
                                             distinct_objects w))
                 [("email", VStr "bo@example.org")]))
       "email"
  = read (form w) "email".
Proof.
  intros w.
  apply (@reset_after_snapshot sample_reserved distinct_objects w "email").
  - reserved_name.
  - reserved_name.
  - reserved_name.
  - reserved_name.
  - reserved_name.
  - repeat constructor; free_name.
  - left. reflexivity.
  - reflexivity.
  - reflexivity.
  - simpl. tauto.
  - discriminate.
  - repeat constructor; discriminate.
Defined.

Lemma success_on_plain_login_form :
  let w := world_of plain_login_form empty_bag_page in
  let w' := response_bookkeeping sample_reserved distinct_objects w in
  successful (form w') = VBool true
  /\ recentlySuccessful (form w') = VBool true
  /\ processing (form w') = VBool false
  /\ read (form w') "email" = read (form w) "email"
  /\ isDirty (form w') = isDirty (form w)
  /\ initial (form w') = initial (form w)
  /\ timers w' = (timers w ++ [(2000, ClearRecentlySuccessful)])%list.
Proof.
  intros w.
  apply (@success_without_reset_or_snapshot
           sample_reserved distinct_objects w "email").
  - reserved_name.
  - reserved_name.
  - reserved_name.
  - right. reflexivity.
  - reflexivity.
  - reflexivity.
  - discriminate.
  - discriminate.
  - discriminate.
Defined.

Lemma failed_response_frame_on_login_form :
  let w := mkWorld submitted_login_form invalid_email_page true
                   [mkPending "post" "/login" None]
                   [mkRequest "post" "/login" NoPayload None]
                   [(2000, ClearRecentlySuccessful)] in
  let w' := response_bookkeeping sample_reserved distinct_objects w in
  page w' = page w
  /\ grecaptcha w' = grecaptcha w
  /\ awaiting_token w' = awaiting_token w
  /\ requests w' = requests w
  /\ (hasErrors w = true -> timers w' = timers w).
Proof.
  intros w.
  apply (@response_bookkeeping_frame sample_reserved distinct_objects w).
Defined.

Lemma fire_during_next_submission :
  let w := world_of submitted_login_form clean_page in
  read (form (fire sample_reserved distinct_objects
                   ClearRecentlySuccessful w)) "processing"
  = read (form w) "processing"
  /\ __options (form (fire sample_reserved distinct_objects
                           ClearRecentlySuccessful w))
     = __options (form w)
  /\ awaiting_token (fire sample_reserved distinct_objects
                          ClearRecentlySuccessful w) = awaiting_token w
  /\ requests (fire sample_reserved distinct_objects
                    ClearRecentlySuccessful w) = requests w
  /\ timers (fire sample_reserved distinct_objects
                  ClearRecentlySuccessful w) = timers w.
Proof.
  intros w.
  apply fire_changes_recentlySuccessful_only.
  - reserved_name.
  - discriminate.
Defined.

Lemma errors_of_name_on_empty_message_page :
  errors (Some "name") (world_of login_form empty_message_page)
  = ["Required"].
Proof.
  apply (@errors_of_field_returns_messages
           (world_of login_form empty_message_page) "name"
           [("email", [""; "Invalid"]); ("name", ["Required"])]
           "Required" []).
  - reflexivity.
  - reflexivity.
  - discriminate.
Defined.

Lemma errors_of_email_within_all :
  let w := world_of login_form invalid_email_page in
  error "email" w = Some "Invalid"
  /\ hasErrors w = true
  /\ In "Invalid" (errors None w).
Proof.
  intros w.
  apply (@errors_of_field_within_all w "email" "Invalid" "Invalid" []).
  - reflexivity.
  - simpl. tauto.
Defined.

Lemma no_errors_in_other_bag :
  let w := world_of used_form invalid_email_page in
  hasErrors w = false
  /\ error "email" w = None
  /\ errors (Some "email") w = []
  /\ errors None w = [].
Proof.
  intros w.
  apply no_errors_without_bag.
  left. reflexivity.
Defined.

Lemma data_after_reset_on_login_form :
  get_prop (data (reset sample_reserved distinct_objects
                        submitted_login_form)) "email"
  = get_prop (initial_object submitted_login_form) "email"
  /\ initial (reset sample_reserved distinct_objects submitted_login_form)
     = initial submitted_login_form.
Proof.
  apply data_after_reset.
  - reserved_name.
  - reserved_name.
  - repeat constructor; free_name.
  - simpl. tauto.
Defined.
